(** * Shaken Fist control plane: supervisor, image cache and REST handlers

    A shallow embedding of three Python modules of the repository,

      - [shakenfist/daemons/main.py]       (module [Supervisor]),
      - [shakenfist/images.py]             (module [Images]),
      - [shakenfist/external_api/app.py]   (module [Api]),

    together with the properties the specification states about them
    (modules [SupervisorProofs], [ImagesProofs] and [ApiProofs]).

    Python dictionaries are finite maps ([gmap]) or, where the insertion
    order is observable, association lists; side effects are threaded
    through a state-and-exception monad whose state survives a raise, as
    the side effects of a Python function do.  What the code calls but
    does not define (the store, the drivers, the web, the clock, the
    external tools) is either a parameter of the section that uses it or
    a definition marked as modelled from the specification.  Logging is
    left out except in the supervisor, and [util.RecordedOperation] is a
    context manager that only records timings. *)

From Stdlib Require Import QArith.
From stdpp Require Import gmap strings list pretty.

Open Scope Z_scope.
Open Scope string_scope.

(** ** Python-level plumbing shared by the three modules *)

Module Py.

(** The exceptions the embedded code can raise. *)
Inductive exn :=
| NameError (name : string)
| KeyError (key : string)
| AttributeError (what : string)
| TypeError (what : string)
| HTTPError (msg : string)
| ConnectionError
| JSONDecodeError
| FileNotFoundError (path : string)
| FileExistsError (path : string)
| ProcessExecutionError (cmd : string)
| ChildProcessError
| CandidateNodeNotFoundException (node : string)
| Exception (msg : string).

#[global] Instance exn_eq_dec : EqDecision exn.
Proof. solve_decision. Defined.

Inductive result (A : Type) :=
| Ok (a : A)
| Raise (e : exn).
Arguments Ok {A} a.
Arguments Raise {A} e.

(** A computation over a world [S]: the world is returned in both
    outcomes, since whatever a Python function did before it raised
    stays done. *)
Definition M (S A : Type) : Type := S -> result A * S.

Definition ret {S A} (a : A) : M S A := fun s => (Ok a, s).

Definition bind {S A B} (m : M S A) (k : A -> M S B) : M S B :=
  fun s => match m s with
           | (Ok a, s') => k a s'
           | (Raise e, s') => (Raise e, s')
           end.

Definition raise {S A} (e : exn) : M S A := fun s => (Raise e, s).
Definition get {S} : M S S := fun s => (Ok s, s).
Definition modify {S} (f : S -> S) : M S unit := fun s => (Ok tt, f s).

(** [try: body except Exception as e: handler e]. *)
Definition try_except {S A} (body : M S A) (handler : exn -> M S A) : M S A :=
  fun s => match body s with
           | (Ok a, s') => (Ok a, s')
           | (Raise e, s') => handler e s'
           end.

(** [with cm: body] for a context manager whose [__exit__] runs on
    every way out and lets the exception through. *)
Definition with_ {S A} (enter : M S unit) (exit_ : M S unit) (body : M S A)
  : M S A :=
  bind enter (fun _ s =>
    match body s with
    | (Ok a, s') => match exit_ s' with
                    | (Ok _, s'') => (Ok a, s'')
                    | (Raise e, s'') => (Raise e, s'')
                    end
    | (Raise e, s') => (Raise e, snd (exit_ s'))
    end).

(** [for x in xs: body x]. *)
Fixpoint for_ {S A} (xs : list A) (body : A -> M S unit) : M S unit :=
  match xs with
  | [] => ret tt
  | x :: rest => bind (body x) (fun _ => for_ rest body)
  end.

(** A [for] loop that updates local variables, gathered in [st]. *)
Fixpoint fold_ {S A B} (xs : list A) (st : B) (body : B -> A -> M S B)
  : M S B :=
  match xs with
  | [] => ret st
  | x :: rest => bind (body st x) (fun st' => fold_ rest st' body)
  end.

#[global] Instance M_ret {S} : MRet (M S) := @ret S.
#[global] Instance M_bind {S} : MBind (M S) :=
  fun A B k m => bind m k.

(** Keys of a [dict] whose keys are strings or integers.  A [str] and
    an [int] never compare equal, so the two kinds of key never
    collide. *)
Inductive key :=
| KStr (s : string)
| KInt (z : Z).

#[global] Instance key_eq_dec : EqDecision key.
Proof. solve_decision. Defined.

#[global] Instance key_countable : Countable key.
Proof.
  refine (inj_countable'
            (fun k => match k with KStr s => inl s | KInt z => inr z end)
            (fun x => match x with inl s => KStr s | inr z => KInt z end) _).
  by intros [].
Defined.

(** [str.startswith] and [str.endswith]. *)
Definition startswith (s p : string) : bool := String.prefix p s.
Definition endswith (s p : string) : bool :=
  String.prefix (String.rev p) (String.rev s).

(** [not s] for an optional string argument: [None] and [''] are
    both falsy. *)
Definition falsy (s : option string) : bool :=
  match s with
  | None => true
  | Some v => bool_decide (v = "")
  end.

End Py.

Import Py.

(** ** The node supervisor ([shakenfist/daemons/main.py]) *)

Module Supervisor.

(** Rows of the coordination store that [restore_instances] reads. *)
Record instance_rec := {
  inst_uuid : string;
  inst_node : string;
  inst_power_state : option string
}.

Record iface_rec := {
  iface_instance_uuid : string;
  iface_network_uuid : string
}.

(** Calls into the hypervisor and network drivers, which live outside
    this module; each either completes or raises. *)
Inductive action :=
| NetCreate (network : string)
| NetEnsureMesh (network : string)
| NetUpdateDhcp (network : string)
| InstanceCreate (uuid : string).

Record world := {
  DAEMONS : gmap key Z;            (* the module-level dict *)
  children : list (Z * key);       (* live child processes: pid, role run *)
  zombies : list Z;                (* exited children not yet waited for *)
  nforks : nat;                    (* calls to os.fork so far *)
  log : list string;
  heartbeats : nat;                (* calls to db.see_this_node *)
  db_instances : list instance_rec;
  db_interfaces : list iface_rec;
  db_networks : list string;
  queue : list (string * string * string);   (* enqueued deletes *)
  done_actions : list action
}.

Definition set_DAEMONS (f : gmap key Z -> gmap key Z) (w : world) : world :=
  {| DAEMONS := f (DAEMONS w); children := children w; zombies := zombies w;
     nforks := nforks w; log := log w; heartbeats := heartbeats w;
     db_instances := db_instances w; db_interfaces := db_interfaces w;
     db_networks := db_networks w; queue := queue w;
     done_actions := done_actions w |}.

Definition set_procs (c : list (Z * key)) (z : list Z) (n : nat) (w : world)
  : world :=
  {| DAEMONS := DAEMONS w; children := c; zombies := z;
     nforks := n; log := log w; heartbeats := heartbeats w;
     db_instances := db_instances w; db_interfaces := db_interfaces w;
     db_networks := db_networks w; queue := queue w;
     done_actions := done_actions w |}.

Definition add_log (line : string) (w : world) : world :=
  {| DAEMONS := DAEMONS w; children := children w; zombies := zombies w;
     nforks := nforks w; log := log w ++ [line]; heartbeats := heartbeats w;
     db_instances := db_instances w; db_interfaces := db_interfaces w;
     db_networks := db_networks w; queue := queue w;
     done_actions := done_actions w |}.

Definition add_heartbeat (w : world) : world :=
  {| DAEMONS := DAEMONS w; children := children w; zombies := zombies w;
     nforks := nforks w; log := log w; heartbeats := S (heartbeats w);
     db_instances := db_instances w; db_interfaces := db_interfaces w;
     db_networks := db_networks w; queue := queue w;
     done_actions := done_actions w |}.

Definition add_queue (item : string * string * string) (w : world) : world :=
  {| DAEMONS := DAEMONS w; children := children w; zombies := zombies w;
     nforks := nforks w; log := log w; heartbeats := heartbeats w;
     db_instances := db_instances w; db_interfaces := db_interfaces w;
     db_networks := db_networks w; queue := queue w ++ [item];
     done_actions := done_actions w |}.

Definition add_action (a : action) (w : world) : world :=
  {| DAEMONS := DAEMONS w; children := children w; zombies := zombies w;
     nforks := nforks w; log := log w; heartbeats := heartbeats w;
     db_instances := db_instances w; db_interfaces := db_interfaces w;
     db_networks := db_networks w; queue := queue w;
     done_actions := done_actions w ++ [a] |}.

(** [str(d)] for a role that is a string or an integer. *)
Definition key_str (k : key) : string :=
  match k with
  | KStr s => s
  | KInt z => pretty z
  end.

(** The supervisor as it starts: [DAEMONS = {}], no child yet, and the
    given contents of the store. *)
Definition initial_world (instances : list instance_rec)
           (interfaces : list iface_rec) (networks : list string) : world :=
  {| DAEMONS := ∅; children := []; zombies := []; nforks := 0; log := [];
     heartbeats := 0; db_instances := instances;
     db_interfaces := interfaces; db_networks := networks; queue := [];
     done_actions := [] |}.

Section WithEnvironment.

(** [config.parsed.get('NODE_NAME')]. *)
Variable NODE_NAME : string.
(** The pid [os.fork] hands to the parent on its n-th call. *)
Variable fork_pid : nat -> Z.
(** Whether a driver call completes ([true]) or raises. *)
Variable driver_ok : action -> bool.

(** *** Forking and the monitor loop *)

(** [os.fork()], seen from the supervisor: a new child exists and
    runs the monitor of role [d]. *)
Definition os_fork (d : key) : M world Z :=
  fun w =>
    let pid := fork_pid (nforks w) in
    (Ok pid, set_procs (children w ++ [(pid, d)]) (zombies w)
                       (S (nforks w)) w).

(** [_start_daemon(d)]: fork, then [DAEMONS[d] = pid]. *)
Definition _start_daemon (d : key) : M world unit :=
  pid ← os_fork d;
  modify (set_DAEMONS (<[d := pid]>));;
  modify (add_log (key_str d ++ " pid is " ++ pretty pid)).

(** The resources publisher is forked first, inline, then the
    remaining daemons in the order of the list in [main]. *)
Definition start_daemons : M world unit :=
  pid ← os_fork (KStr "resources");
  modify (set_DAEMONS (<[KStr "resources" := pid]>));;
  modify (add_log ("resources pid is " ++ pretty pid));;
  for_ ["api"; "cleaner"; "net"; "queues"; "triggers"]
       (fun d => _start_daemon (KStr d)).

(** [os.waitpid(-1, os.WNOHANG)]: the pid of an exited child if
    there is one (it is reaped), 0 if children exist and all run,
    and [ChildProcessError] if there is no child at all. *)
Definition os_waitpid : M world Z :=
  fun w =>
    match zombies w with
    | pid :: rest => (Ok pid, set_procs (children w) rest (nforks w) w)
    | [] => match children w with
            | [] => (Raise ChildProcessError, w)
            | _ :: _ => (Ok 0, w)
            end
    end.

(** [DAEMONS.get(wpid, 'unknown')]: the lookup is by pid. *)
Definition DAEMONS_get (wpid : Z) (w : world) : key :=
  match DAEMONS w !! KInt wpid with
  | Some v => KInt v
  | None => KStr "unknown"
  end.

(** One turn of [while True:] in [main] (the sleep takes time and
    changes nothing). *)
Definition monitor_tick : M world unit :=
  wpid ← os_waitpid;
  (if bool_decide (wpid ≠ 0) then
     w ← get;
     let d := DAEMONS_get wpid w in
     modify (add_log (key_str d ++ " died (pid " ++ pretty wpid ++ ")"));;
     if bool_decide (d ≠ KStr "unknown") then _start_daemon d else ret tt
   else ret tt);;
  modify add_heartbeat.

Fixpoint monitor_loop (ticks : nat) : M world unit :=
  match ticks with
  | O => ret tt
  | S n => monitor_tick;; monitor_loop n
  end.

(** A child process dies: it leaves the live children and waits to
    be reaped. *)
Definition kill (pid : Z) (w : world) : world :=
  if bool_decide (pid ∈ (children w).*1) then
    set_procs (filter (fun c => c.1 ≠ pid) (children w))
              (zombies w ++ [pid]) (nforks w) w
  else w.

(** Whether a live child runs role [d]. *)
Definition runs (d : string) (w : world) : Prop :=
  KStr d ∈ (children w).*2.

(** *** Restore on start *)

(** Names bound at module level of [main.py], by its imports,
    assignments and [def]s. *)
Definition module_names : list string :=
  ["setproctitle"; "time"; "os"; "processutils"; "config"; "daemon";
   "external_api_daemon"; "cleaner_daemon"; "queues_daemon";
   "net_daemon"; "resource_daemon"; "trigger_daemon"; "db"; "net";
   "util"; "virt"; "LOG"; "handler"; "restore_instances";
   "DAEMON_IMPLEMENTATIONS"; "DAEMONS"; "main"].

(** Names [restore_instances] assigns, hence its locals. *)
Definition restore_locals : list string :=
  ["networks"; "instances"; "inst"; "iface"; "_"; "network"; "n"; "e";
   "instance"; "i"].

(** Evaluating a bare name inside [restore_instances]: a local, else
    a module global, else [NameError] (no builtin is involved in the
    names looked up here).  The value of a bound name is kept
    symbolic. *)
Definition load_name (x : string) : M world string :=
  if bool_decide (x ∈ (restore_locals ++ module_names)%list) then ret x
  else raise (NameError x).

(** Modelled from the spec: [db.get_instances(only_node=...)], a scan
    of the instance records whose [node] is the given one. *)
Definition get_instances (only_node : string) (w : world)
  : list instance_rec :=
  filter (fun i => inst_node i = only_node) (db_instances w).

(** Modelled from the spec: [db.get_instance_interfaces(uuid)], the
    interface records of one instance. *)
Definition get_instance_interfaces (uuid : string) (w : world)
  : list iface_rec :=
  filter (fun f => iface_instance_uuid f = uuid) (db_interfaces w).

(** Modelled from the spec: [virt.from_db(uuid)], the instance
    rehydrated from its record, [None] without one. *)
Definition virt_from_db (uuid : string) (w : world) : option instance_rec :=
  List.find (fun i => bool_decide (inst_uuid i = uuid)) (db_instances w).

(** Modelled from the spec: [net.from_db(uuid)], [None] for a network
    without a record. *)
Definition net_from_db (uuid : string) (w : world) : option string :=
  if bool_decide (uuid ∈ db_networks w) then Some uuid else None.

(** A call into a driver. *)
Definition call (a : action) : M world unit :=
  if driver_ok a then modify (add_action a)
  else raise (Exception "driver call failed").

(** Modelled from the spec: [util.ignore_exception(what, e)] logs and
    returns. *)
Definition ignore_exception (what : string) (e : exn) : M world unit :=
  modify (add_log ("ignored exception: " ++ what)).

(** Modelled from the spec: [db.enqueue_delete(node, instance, reason)]
    puts a delete of the instance on the work queue. *)
Definition enqueue_delete (node instance reason : string) : M world unit :=
  modify (add_queue (node, instance, reason)).

(** The first loop: the networks (without repetition) and the
    instances of this node. *)
Definition collect (w : world) : list string * list string :=
  foldl (fun (acc : list string * list string) (inst : instance_rec) =>
           (foldl (fun (networks : list string) (iface : iface_rec) =>
                     if bool_decide (iface_network_uuid iface ∈ networks)
                     then networks
                     else (networks ++ [iface_network_uuid iface])%list)
                  acc.1 (get_instance_interfaces (inst_uuid inst) w),
            (acc.2 ++ [inst_uuid inst])%list))
        ([], []) (get_instances NODE_NAME w).

Definition restore_network (network : string) : M world unit :=
  try_except
    (w ← get;
     let n := net_from_db network w in
     modify (add_log (match n with Some u => u | None => "None" end
                      ++ " Restoring network"));;
     match n with
     | None => raise (AttributeError "'NoneType' object has no attribute 'create'")
     | Some u =>
         call (NetCreate u);; call (NetEnsureMesh u);; call (NetUpdateDhcp u)
     end)
    (fun e => ignore_exception ("restore network " ++ network) e).

Definition restorable_states : list string :=
  ["on"; "transition-to-on"; "initial"; "unknown"].

Definition restore_instance (instance : string) : M world unit :=
  try_except
    (w ← get;
     match virt_from_db instance w with
     | None => ret tt                                   (* continue *)
     | Some i =>
         if bool_decide (default "unknown" (inst_power_state i)
                           ∉ restorable_states)
         then ret tt                                    (* continue *)
         else
           modify (add_log (inst_uuid i ++ " Restoring instance"));;
           call (InstanceCreate (inst_uuid i))
     end)
    (fun e =>
       ignore_exception ("restore instance " ++ instance) e;;
       node ← load_name "node";
       enqueue_delete node instance "error").

Definition restore_instances : M world unit :=
  w ← get;
  let '(networks, instances) := collect w in
  for_ networks restore_network;;
  for_ instances restore_instance.

(** [main] on a node that is not the network node (so that the bridge
    and firewall set-up between the first fork and the others is
    skipped), with the monitor loop cut after [ticks] turns. *)
Definition main (ticks : nat) : M world unit :=
  modify add_heartbeat;;                       (* db.see_this_node() *)
  start_daemons;;
  restore_instances;;
  monitor_loop ticks.

End WithEnvironment.

End Supervisor.

(** ** SHA-256 ([hashlib.sha256]), after FIPS 180-4 *)

Module Sha256.

(** Words are 32-bit: integers reduced modulo 2^32. *)
Definition wrap (x : Z) : Z := x mod 2 ^ 32.
Definition add32 (x y : Z) : Z := wrap (x + y).
Definition rotr (n x : Z) : Z :=
  wrap (Z.lor (Z.shiftr x n) (Z.shiftl x (32 - n))).

Definition Ch (x y z : Z) : Z :=
  Z.lxor (Z.land x y) (Z.land (Z.lnot x) z).
Definition Maj (x y z : Z) : Z :=
  Z.lxor (Z.lxor (Z.land x y) (Z.land x z)) (Z.land y z).
Definition Sigma0 (x : Z) : Z :=
  Z.lxor (Z.lxor (rotr 2 x) (rotr 13 x)) (rotr 22 x).
Definition Sigma1 (x : Z) : Z :=
  Z.lxor (Z.lxor (rotr 6 x) (rotr 11 x)) (rotr 25 x).
Definition sigma0 (x : Z) : Z :=
  Z.lxor (Z.lxor (rotr 7 x) (rotr 18 x)) (Z.shiftr x 3).
Definition sigma1 (x : Z) : Z :=
  Z.lxor (Z.lxor (rotr 17 x) (rotr 19 x)) (Z.shiftr x 10).

(** The constants are the leading 32 bits of the fractional parts of
    the square roots (initial hash value) and cube roots (round
    constants) of the first primes. *)
Definition is_prime (n : nat) : bool :=
  Nat.ltb 1 n &&
  forallb (fun d => negb (Nat.eqb (n mod d) 0)) (seq 2 (n - 2)).

Definition primes64 : list Z :=
  Eval vm_compute in
    Z.of_nat <$> take 64 (filter (fun n => is_prime n = true) (seq 2 400)).

(** The largest [r] below [2 ^ bits] with [r ^ 3 <= n]. *)
Definition cube_root (bits : nat) (n : Z) : Z :=
  foldl (fun r i => let r' := r + 2 ^ Z.of_nat i in
                    if Z.leb (r' * r' * r') n then r' else r)
        0 (rev (seq 0 bits)).

Definition initial_hash : list Z :=
  Eval vm_compute in
    (fun p => wrap (Z.sqrt (p * 2 ^ 64))) <$> take 8 primes64.

Definition round_constants : list Z :=
  Eval vm_compute in
    (fun p => wrap (cube_root 36 (p * 2 ^ 96))) <$> primes64.

(** Padding: a 1 bit, zeros up to 448 modulo 512, then the length in
    bits as a 64-bit big-endian number. *)
Definition bytes_of (s : string) : list Z :=
  (fun c => Z.of_nat (Ascii.nat_of_ascii c)) <$> String.list_ascii_of_string s.

Definition big_endian (width : nat) (x : Z) : list Z :=
  (fun i => Z.shiftr x (8 * Z.of_nat i) mod 256) <$> rev (seq 0 width).

Definition pad (msg : list Z) : list Z :=
  let len := Z.of_nat (length msg) in
  let zeros := Z.to_nat ((55 - len) mod 64) in
  msg ++ [128] ++ replicate zeros 0 ++ big_endian 8 (8 * len).

Definition word_of (bytes : list Z) : Z :=
  foldl (fun acc b => acc * 256 + b) 0 bytes.

(** Split into groups of [n]; [fuel] bounds the number of groups. *)
Fixpoint chunks {A} (fuel n : nat) (l : list A) : list (list A) :=
  match fuel, l with
  | O, _ | _, [] => []
  | S fuel', _ => take n l :: chunks fuel' n (drop n l)
  end.

Definition words_of (bytes : list Z) : list Z :=
  word_of <$> chunks (length bytes) 4 bytes.

(** The message schedule, most recent word first. *)
Definition extend (w : list Z) : list Z :=
  let at_ i := default 0 (w !! i) in
  add32 (add32 (sigma1 (at_ 1%nat)) (at_ 6%nat))
        (add32 (sigma0 (at_ 14%nat)) (at_ 15%nat)) :: w.

Definition schedule (block : list Z) : list Z :=
  rev (Nat.iter 48 extend (rev block)).

Definition round (st : list Z) (kw : Z * Z) : list Z :=
  match st with
  | [a; b; c; d; e; f; g; h] =>
      let t1 := add32 (add32 (add32 h (Sigma1 e)) (add32 (Ch e f g) kw.1)) kw.2 in
      let t2 := add32 (Sigma0 a) (Maj a b c) in
      [add32 t1 t2; a; b; c; add32 d t1; e; f; g]
  | _ => st
  end.

Definition compress (h : list Z) (block : list Z) : list Z :=
  zip_with add32 h
           (foldl round h (zip round_constants (schedule block))).

Definition digest (msg : list Z) : list Z :=
  let words := words_of (pad msg) in
  foldl compress initial_hash (chunks (length words) 16 words).

Definition hex_digit (n : Z) : Ascii.ascii :=
  Ascii.ascii_of_nat (Z.to_nat (if Z.ltb n 10 then 48 + n else 87 + n)).

Definition hex_word (x : Z) : string :=
  String.string_of_list_ascii
    ((fun i => hex_digit (Z.shiftr x (4 * Z.of_nat i) mod 16))
       <$> rev (seq 0 8)).

(** [hashlib.sha256(s).hexdigest()] for the bytes of [s]. *)
Definition hexdigest (s : string) : string :=
  foldr (fun w acc => hex_word w ++ acc) "" (digest (bytes_of s)).

End Sha256.


(** ** The image cache ([shakenfist/images.py]) *)

Module Images.

(** [config.parsed]. *)
Record config := {
  NODE_NAME : string;
  STORAGE_PATH : string
}.

(** Values of the [.info] dict: JSON null, strings and integers. *)
Inductive value :=
| VNone
| VStr (s : string)
| VInt (z : Z).

#[global] Instance value_eq_dec : EqDecision value.
Proof. solve_decision. Defined.

(** A file is a sequence of bytes, or the JSON text of an [.info]
    dict, kept as the dict it parses to. *)
Inductive file :=
| Blob (bytes : string)
| Info (info : gmap string value).

(** A field of what [identify] returns: text, or a number (a
    [float] in the source, a rational here). *)
Inductive ival :=
| IStr (s : string)
| INum (q : Q).

(** The answer to [requests.get(..., stream=True)]; [headers] is
    keyed by the header names as the code spells them (the lookup of
    [requests] ignores case), and [chunks] is what
    [iter_content(chunk_size=8192)] yields. *)
Record http_response := {
  status_code : Z;
  headers : gmap string string;
  chunks : list string
}.

Inductive effect :=
| LockAcquire (name : string) (timeout : Z)
| LockRelease (name : string)
| PathExists (path : string)
| MakeDirs (path : string)
| ReadFile (path : string)
| WriteFile (path : string)
| Link (src dst : string)
| CopyFile (src dst : string)
| HttpGet (url : string)
| Exec (cmd : string).

Record world := {
  files : gmap string file;
  dirs : gset string;
  trace : list effect;
  refreshed : list string;              (* lock.refresh() calls, by lock name *)
  clock : nat;                          (* readings of the clock so far *)
  caller_locks : list (option string)   (* the list object passed as [locks] *)
}.

Definition set_files (f : gmap string file -> gmap string file) (w : world)
  : world :=
  {| files := f (files w); dirs := dirs w; trace := trace w;
     refreshed := refreshed w; clock := clock w;
     caller_locks := caller_locks w |}.

Definition set_dirs (f : gset string -> gset string) (w : world) : world :=
  {| files := files w; dirs := f (dirs w); trace := trace w;
     refreshed := refreshed w; clock := clock w;
     caller_locks := caller_locks w |}.

Definition emit (e : effect) (w : world) : world :=
  {| files := files w; dirs := dirs w; trace := trace w ++ [e];
     refreshed := refreshed w; clock := clock w;
     caller_locks := caller_locks w |}.

Definition add_refresh (name : string) (w : world) : world :=
  {| files := files w; dirs := dirs w; trace := trace w;
     refreshed := refreshed w ++ [name]; clock := clock w;
     caller_locks := caller_locks w |}.

Definition tick (w : world) : world :=
  {| files := files w; dirs := dirs w; trace := trace w;
     refreshed := refreshed w; clock := S (clock w);
     caller_locks := caller_locks w |}.

Definition set_caller_locks (l : list (option string)) (w : world) : world :=
  {| files := files w; dirs := dirs w; trace := trace w;
     refreshed := refreshed w; clock := clock w; caller_locks := l |}.

(** [os.path.join(a, b)]. *)
Definition path_join (a b : string) : string :=
  if startswith b "/" then b
  else if bool_decide (a = "") || endswith a "/" then a ++ b
  else a ++ "/" ++ b.

(** ['%03d' % n]. *)
Definition zero_pad (width : nat) (digits : string) : string :=
  String.string_of_list_ascii
    (replicate (width - String.length digits) (Ascii.ascii_of_nat 48))
  ++ digits.

Definition fmt_03d (n : Z) : string :=
  if Z.ltb n 0 then "-" ++ zero_pad 2 (pretty (- n))
  else zero_pad 3 (pretty n).

Definition IMAGE_FETCH_LOCK_TIMEOUT : Z := 600.

Definition VALIDATED_IMAGE_FIELDS : list string :=
  ["Last-Modified"; "Content-Length"].

(** [d.get(field)] on the [.info] dict and on the response headers,
    as Python values: a missing key gives [None]. *)
Definition info_get (info : gmap string value) (field : string) : value :=
  default VNone (info !! field).

Definition headers_get (h : gmap string string) (field : string) : value :=
  match h !! field with
  | Some v => VStr v
  | None => VNone
  end.

Section WithEnvironment.

Variable cfg : config.
(** The [resolve] functions of [image_resolver_cirros] and
    [image_resolver_ubuntu]. *)
Variable resolve_cirros : string -> string.
Variable resolve_ubuntu : string -> string.
(** The web: the answer to a GET, [None] when the connection fails. *)
Variable http_get : string -> option http_response.
(** [time.time()], n-th reading, and [email.utils.formatdate()]. *)
Variable now : nat -> Q.
Variable formatdate : nat -> string.
(** The external tools, as functions of the file they read; [None]
    when the command fails.  [qemu_img_info] stands for running
    [qemu-img info] and parsing its output into a dict. *)
Variable qemu_img_info : file -> option (gmap string ival).
Variable qemu_img_convert : file -> option file.
Variable qemu_img_resize : file -> Z -> option file.
Variable gunzip : file -> option file.

(** *** Files *)

(** [os.path.exists(path)]. *)
Definition path_exists (path : string) : M world bool :=
  modify (emit (PathExists path));;
  w ← get;
  ret (bool_decide (is_Some (files w !! path)) || bool_decide (path ∈ dirs w)).

Definition read_file (path : string) : M world file :=
  modify (emit (ReadFile path));;
  w ← get;
  match files w !! path with
  | Some f => ret f
  | None => raise (FileNotFoundError path)
  end.

Definition write_file (path : string) (f : file) : M world unit :=
  modify (emit (WriteFile path));;
  modify (set_files (<[path := f]>)).

(** [os.link(src, dst)].  The link is a second name for the same
    content; no function here writes through a name after it was
    linked. *)
Definition os_link (src dst : string) : M world unit :=
  modify (emit (Link src dst));;
  w ← get;
  match files w !! src with
  | None => raise (FileNotFoundError src)
  | Some f =>
      if bool_decide (is_Some (files w !! dst)) || bool_decide (dst ∈ dirs w)
      then raise (FileExistsError dst)
      else modify (set_files (<[dst := f]>))
  end.

(** [shutil.copyfile(src, dst)]. *)
Definition copyfile (src dst : string) : M world unit :=
  modify (emit (CopyFile src dst));;
  w ← get;
  match files w !! src with
  | None => raise (FileNotFoundError src)
  | Some f => modify (set_files (<[dst := f]>))
  end.

(** [processutils.execute(cmd, shell=True)] for a tool that reads
    [src] and leaves its output in [dst]. *)
Definition execute (cmd : string) (tool : file -> option file)
           (src dst : string) : M world unit :=
  modify (emit (Exec cmd));;
  w ← get;
  match files w !! src ≫= tool with
  | Some out => modify (set_files (<[dst := out]>))
  | None => raise (ProcessExecutionError cmd)
  end.

(** [time.time()]. *)
Definition time_time : M world Q :=
  fun w => (Ok (now (clock w)), tick w).

(** Modelled from the spec: [with db.get_lock(name, timeout=...) as
    lock: body lock], released on every way out; the
    handle is known by the name of its lock. *)
Definition get_lock {A} (name : string) (timeout : Z)
           (body : string -> M world A) : M world A :=
  with_ (modify (emit (LockAcquire name timeout)))
        (modify (emit (LockRelease name))) (body name).

(** *** The functions of the module *)

Definition _get_image_lock_name (hashed_image_url : string) : string :=
  "sf/images/" ++ NODE_NAME cfg ++ "/" ++ hashed_image_url.

Definition resolvers : list (string * (string -> string)) :=
  [("cirros", resolve_cirros); ("ubuntu", resolve_ubuntu)].

Definition resolve (name : string) : string :=
  match List.find (fun r => startswith name r.1) resolvers with
  | Some r => r.2 name
  | None => name
  end.

Definition _get_cache_path : M world string :=
  let image_cache_path := path_join (STORAGE_PATH cfg) "image_cache" in
  found ← path_exists image_cache_path;
  (if negb found then
     modify (emit (MakeDirs image_cache_path));;
     modify (set_dirs (fun d => {[image_cache_path]} ∪ d))
   else ret tt);;
  ret image_cache_path.

Definition hash_image (image_url : string) : M world (string * string) :=
  let hashed_image_url := Sha256.hexdigest image_url in
  cache ← _get_cache_path;
  ret (hashed_image_url, path_join cache hashed_image_url).

Definition _read_info (image_url hashed_image_url hashed_image_path : string)
  : M world (gmap string value) :=
  found ← path_exists (hashed_image_path ++ ".info");
  if negb found then
    ret (<["url" := VStr image_url]>
           (<["hash" := VStr hashed_image_url]>
              (<["version" := VInt 0]> ∅)))
  else
    f ← read_file (hashed_image_path ++ ".info");
    match f with
    | Info info => ret info
    | Blob _ => raise JSONDecodeError
    end.

Definition requires_fetch (image_url : string)
  : M world (gmap string value * bool * http_response) :=
  '(hashed_image_url, hashed_image_path) ← hash_image image_url;
  info ← _read_info image_url hashed_image_url hashed_image_path;
  modify (emit (HttpGet image_url));;
  resp ← match http_get image_url with
         | Some r => ret r
         | None => raise ConnectionError
         end;
  if bool_decide (status_code resp ≠ 200) then
    raise (HTTPError ("Failed to fetch HEAD of " ++ image_url
                      ++ " (status code " ++ pretty (status_code resp)
                      ++ ")"))
  else
    let image_dirty :=
      foldl (fun dirty field =>
               if bool_decide (info_get info field
                               ≠ headers_get (headers resp) field)
               then true else dirty)
            false VALIDATED_IMAGE_FIELDS in
    ret (info, image_dirty, resp).

(** The nested function [bump_locks] of [fetch]. *)
Definition bump_locks (locks : option (list (option string)))
  : M world unit :=
  match locks with
  | None | Some [] => ret tt
  | Some l =>
      for_ l (fun lock =>
                match lock with
                | Some name => modify (add_refresh name)
                | None => ret tt
                end)
  end.

(** [info['version']], which must be there and an [int]. *)
Definition info_version (info : gmap string value) : M world Z :=
  match info !! "version" with
  | Some (VInt v) => ret v
  | Some _ => raise (TypeError "version is not an int")
  | None => raise (KeyError "version")
  end.

Definition info_url (info : gmap string value) : M world string :=
  match info !! "url" with
  | Some (VStr u) => ret u
  | Some _ => raise (AttributeError "url has no attribute 'endswith'")
  | None => raise (KeyError "url")
  end.

Definition fetch (hashed_image_path : string) (info : gmap string value)
           (resp : http_response) (locks : option (list (option string)))
  : M world string :=
  version ← info_version info;
  w ← get;
  let info := <["version" := VInt (version + 1)]> info in
  let info := <["fetched_at" := VStr (formatdate (clock w))]> info in
  let info := foldl (fun i field =>
                       <[field := headers_get (headers resp) field]> i)
                    info VALIDATED_IMAGE_FIELDS in
  let target := hashed_image_path ++ ".v" ++ fmt_03d (version + 1) in
  write_file target (Blob "");;                      (* open(..., 'wb') *)
  '(fetched, _) ←
    fold_ (chunks resp) (0, 0%Q)
      (fun '(fetched, last_lock_refresh) chunk =>
         modify (set_files (alter (fun f =>
           match f with
           | Blob b => Blob (b ++ chunk)
           | Info _ => f
           end) target));;
         t ← time_time;
         if negb (Qle_bool (t - last_lock_refresh) 10) then
           bump_locks locks;;
           t' ← time_time;
           ret (fetched + Z.of_nat (String.length chunk), t')
         else
           ret (fetched + Z.of_nat (String.length chunk),
                last_lock_refresh));
  (if Z.ltb 0 fetched then
     write_file (hashed_image_path ++ ".info") (Info info)
   else ret tt);;
  url ← info_url info;
  if endswith url ".gz" then
    found ← path_exists (target ++ ".orig");
    (if negb found then
       bump_locks locks;;
       (* the shell opens the target of [>] before gunzip runs *)
       write_file (target ++ ".orig") (Blob "");;
       execute ("gunzip -k -q -c " ++ target ++ " > " ++ target ++ ".orig")
               gunzip target (target ++ ".orig")
     else ret tt);;
    ret (target ++ ".orig")
  else ret target.

(** [identify(path)]. *)
Definition identify (path : string) : M world (gmap string ival) :=
  found ← path_exists path;
  if negb found then ret ∅
  else
    modify (emit (Exec ("qemu-img info " ++ path)));;
    w ← get;
    match files w !! path ≫= qemu_img_info with
    | Some data => ret data
    | None => raise (ProcessExecutionError ("qemu-img info " ++ path))
    end.

Definition _transcode (hashed_image_path : string) : M world unit :=
  found ← path_exists (hashed_image_path ++ ".qcow2");
  if found : bool then ret tt
  else
    data ← identify hashed_image_path;
    match data !! "file format" with
    | Some (IStr "qcow2") =>
        os_link hashed_image_path (hashed_image_path ++ ".qcow2")
    | _ =>
        execute ("qemu-img convert -t none -O qcow2 " ++ hashed_image_path
                 ++ " " ++ hashed_image_path ++ ".qcow2")
                qemu_img_convert hashed_image_path
                (hashed_image_path ++ ".qcow2")
    end.

(** [locks.append(image_lock)]: the list object grows, and the value
    of the call is [None]. *)
Definition list_append (locks : option (list (option string)))
           (x : string) : M world (option (list (option string))) :=
  match locks with
  | None => raise (AttributeError
                     "'NoneType' object has no attribute 'append'")
  | Some l => modify (set_caller_locks (l ++ [Some x]));; ret None
  end.

(** [get_image(url, locks, op_label, timeout)]. *)
Definition get_image (url : string) (locks : option (list (option string)))
           (timeout : Z) : M world string :=
  '(hashed_image_url, hashed_image_path) ← hash_image url;
  get_lock (_get_image_lock_name hashed_image_url) timeout
    (fun image_lock =>
       let image_url := resolve url in
       '(info, image_dirty, resp) ← requires_fetch image_url;
       hashed_image_path ←
         (if image_dirty : bool then
            appended ← list_append locks image_lock;
            fetch hashed_image_path info resp appended
          else
            version ← info_version info;
            ret (hashed_image_path ++ ".v" ++ fmt_03d version));
       _transcode hashed_image_path;;
       ret hashed_image_path).

(** [resize(hashed_image_path, size)]. *)
Definition resize (hashed_image_path : string) (size : Z) : M world string :=
  let backing_file := hashed_image_path ++ ".qcow2" ++ "." ++ pretty size
                      ++ "G" in
  found ← path_exists backing_file;
  if found : bool then ret backing_file
  else
    data ← identify hashed_image_path;
    let same_size :=
      match data !! "virtual size" with
      | Some (INum q) =>
          Qeq_bool q (inject_Z (size * 1024 * 1024 * 1024))
      | _ => false
      end in
    if same_size then
      os_link hashed_image_path backing_file;;
      ret backing_file
    else
      copyfile (hashed_image_path ++ ".qcow2") backing_file;;
      execute ("qemu-img resize " ++ backing_file ++ " " ++ pretty size
               ++ "G")
              (fun f => qemu_img_resize f size) backing_file backing_file;;
      ret backing_file.

End WithEnvironment.

End Images.

(** ** The REST handlers ([shakenfist/external_api/app.py]) *)

Module Api.

Set Warnings "-register-all".

(** JSON values, as [flask] hands them to the handlers. *)
Inductive json :=
| JNull
| JBool (b : bool)
| JNum (z : Z)
| JStr (s : string)
| JArr (items : list json)
| JObj (members : list (string * json)).

(** [config.parsed]. *)
Record config := {
  NODE_NAME : string;
  NODE_IP : string;
  NETWORK_NODE_IP : string;
  API_PORT : Z;
  INCLUDE_TRACEBACKS : string
}.

(** What a handler reads of [flask.request]. *)
Record request := {
  REQUEST_METHOD : string;
  PATH_INFO : string;
  req_data : string;                  (* flask.request.data *)
  req_json : option json;             (* get_json(force=True); None: it raises *)
  req_authorization : option string   (* headers.get('Authorization') *)
}.

(** A [flask.Response]. *)
Record response := {
  status_code : Z;
  body : string;
  mimetype : string
}.

(** A request sent with [requests.request] and the answer to it. *)
Record outgoing := {
  out_method : string;
  out_url : string;
  out_data : string;
  out_authorization : option string;
  out_user_agent : string
}.

Record upstream := {
  up_status_code : Z;
  up_text : string;
  up_content_type : option string
}.

(** Records of the coordination store. *)
Record instance_rec := {
  i_uuid : string;
  i_name : string;
  i_vcpus : Z;
  i_memory_mb : Z;
  i_disks : json;
  i_ssh_key : option string;
  i_user_data : option string;
  i_node : option string;     (* None until placed *)
  i_state : string
}.

Record interface_rec := {
  if_uuid : string;
  if_instance_uuid : string;
  if_network_uuid : string;
  if_ipv4 : string;
  if_model : string;
  if_order : nat;
  if_state : string
}.

(** What a handler returns: a response object, or a value that
    [flask_restful] serialises with status 200, here a JSON value or
    the instance record [db.get_instance] finds. *)
Inductive reply :=
| Response (r : response)
| Payload (j : json)
| Created (i : option instance_rec).

(** One entry of the [network] list of a create request; [None] is a
    key that is not in the dict. *)
Record netdesc := {
  nd_network_uuid : option string;
  nd_address : option string;
  nd_model : option string
}.

(** Modelled from the spec: the IPManager of a network, the addresses
    of its netblock and the set of those in use. *)
Record ipmanager := {
  ipm_addresses : list string;
  ipm_in_use : list string
}.

Inductive action :=
| NetCreate (network : string)
| NetEnsureMesh (network : string)
| NetUpdateDhcp (network : string)
| InstanceCreate (uuid : string).

(** What a handler does besides writing records. *)
Inductive effect :=
| Event (object_type object_uuid operation : string)
        (phase message : option string)            (* db.add_event *)
| LockAcquire (name : string) (ttl : Z)
| LockRelease (name : string)
| Driver (a : action)
| Sent (o : outgoing).

Record world := {
  instances : gmap string instance_rec;
  interfaces : list interface_rec;
  ipmanagers : gmap string ipmanager;
  networks : list string;
  trace : list effect;
  uuids_drawn : nat;
  randoms_drawn : nat
}.

Definition set_instances (f : gmap string instance_rec -> gmap string instance_rec)
           (w : world) : world :=
  {| instances := f (instances w); interfaces := interfaces w;
     ipmanagers := ipmanagers w; networks := networks w; trace := trace w;
     uuids_drawn := uuids_drawn w; randoms_drawn := randoms_drawn w |}.

Definition set_interfaces (f : list interface_rec -> list interface_rec)
           (w : world) : world :=
  {| instances := instances w; interfaces := f (interfaces w);
     ipmanagers := ipmanagers w; networks := networks w; trace := trace w;
     uuids_drawn := uuids_drawn w; randoms_drawn := randoms_drawn w |}.

Definition set_ipmanagers (f : gmap string ipmanager -> gmap string ipmanager)
           (w : world) : world :=
  {| instances := instances w; interfaces := interfaces w;
     ipmanagers := f (ipmanagers w); networks := networks w; trace := trace w;
     uuids_drawn := uuids_drawn w; randoms_drawn := randoms_drawn w |}.

Definition emit (e : effect) (w : world) : world :=
  {| instances := instances w; interfaces := interfaces w;
     ipmanagers := ipmanagers w; networks := networks w;
     trace := trace w ++ [e];
     uuids_drawn := uuids_drawn w; randoms_drawn := randoms_drawn w |}.

Definition set_draws (u r : nat) (w : world) : world :=
  {| instances := instances w; interfaces := interfaces w;
     ipmanagers := ipmanagers w; networks := networks w; trace := trace w;
     uuids_drawn := u; randoms_drawn := r |}.

(** The locals of the provisioning loop of [Instances.post]:
    [order], the keys of [nets] and [allocations], the last two in
    insertion order. *)
Record loop_state := {
  order : nat;
  nets : list string;
  allocations : list (string * list (string * nat))
}.

(** [d.setdefault(k, [])] and [d[k].append(x)] on such a dict. *)
Definition setdefault {A} (k : string) (d : list (string * list A))
  : list (string * list A) :=
  if bool_decide (k ∈ d.*1) then d else (d ++ [(k, [])])%list.

Definition append_at {A} (k : string) (x : A) (d : list (string * list A))
  : list (string * list A) :=
  (fun '(k', xs) => if bool_decide (k' = k) then (k', (xs ++ [x])%list)
                    else (k', xs)) <$> d.

(** [body[k] = v] on a JSON object. *)
Definition json_set (k : string) (v : json) (members : list (string * json))
  : list (string * json) :=
  if bool_decide (k ∈ members.*1) then
    (fun '(k', v') => if bool_decide (k' = k) then (k', v) else (k', v'))
      <$> members
  else (members ++ [(k, v)])%list.

(** [re.sub(r'([^a-zA-Z0-9_\-])', '', name)]. *)
Definition name_char (c : Ascii.ascii) : bool :=
  let n := Ascii.nat_of_ascii c in
  ((97 <=? n) && (n <=? 122) || (65 <=? n) && (n <=? 90)
   || (48 <=? n) && (n <=? 57) || (n =? 95) || (n =? 45))%nat.

Fixpoint sanitize (name : string) : string :=
  match name with
  | EmptyString => EmptyString
  | String c rest =>
      if name_char c then String c (sanitize rest) else sanitize rest
  end.

Section WithEnvironment.

Variable cfg : config.
(** The module global [TESTING]. *)
Variable TESTING : bool.
(** [json.dumps] and [json.loads] ([None]: it raises). *)
Variable json_dumps : json -> string.
Variable json_loads : string -> option json.
(** [util.get_user_agent()]. *)
Variable user_agent : string.
(** [create_access_token(identity=...)]. *)
Variable create_access_token : string -> string.
(** The network: the answer [requests.request] gets, [None] when it
    raises instead. *)
Variable requests_request : outgoing -> option upstream.
(** [traceback.format_exc()] for the exception being handled. *)
Variable format_exc : exn -> string.

(** [error(status_code, message)]; [tb] is the formatted traceback
    of the exception being handled, if one is. *)
Definition error_in (tb : option string) (status : Z) (message : string)
  : response :=
  let base := [("error", JStr message); ("status", JNum status)] in
  let members :=
    if TESTING || bool_decide (INCLUDE_TRACEBACKS cfg = "1") then
      match tb with
      | Some t => (base ++ [("traceback", JStr t)])%list
      | None => base
      end
    else base in
  {| status_code := status; body := json_dumps (JObj members);
     mimetype := "application/json" |}.

(** [error] called outside an [except] block. *)
Definition error (status : Z) (message : string) : response :=
  error_in None status message.

(** [flask_get_post_body()]. *)
Definition flask_get_post_body (req : request) : json :=
  match req_json req with
  | Some j => j
  | None =>
      if bool_decide (req_data req ≠ "") then
        match json_loads (req_data req) with
        | Some j => j
        | None => JObj []
        end
      else JObj []
  end.

(** The [try]/[except] of [generic_wrapper]: any exception becomes a
    500. *)
Definition generic_wrapper {S} (func : M S reply) : M S reply :=
  try_except func
    (fun e => ret (Response (error_in (Some (format_exc e))
                                      500 "server error"))).

(** *** [Auth] *)

(** A record under [passwords/<namespace>]; the key ['passwords'] may
    be missing from it. *)
Record password_rec := { rec_passwords : option (list string) }.

(** [Auth._get_password]: [etcd.get('passwords', None, namespace)],
    then the list under ['passwords'], [[]] by default. *)
Definition _get_password (store : gmap string password_rec)
           (namespace : string) : list string :=
  match store !! namespace with
  | Some rec => default [] (rec_passwords rec)
  | None => []
  end.

(** [Auth.post]. *)
Definition Auth_post (store : gmap string password_rec)
           (namespace password : option string) : reply :=
  if falsy namespace then
    Response (error 400 "Missing namespace in request")
  else if falsy password then
    Response (error 400 "Missing password in request")
  else
    let ns := default "" namespace in
    let pw := default "" password in
    if bool_decide (pw ∉ _get_password store ns) then
      Response (error 401 "Unauthorized")
    else
      Payload (JObj [("access_token", JStr (create_access_token ns))]).

(** *** [redirect_instance_request] *)

(** ['%s' % node] for the [node] field of an instance record, which
    is [None] until the instance is placed. *)
Definition str_of_node (node : option string) : string :=
  default "None" node.

(** The request the wrapper sends to the owning node. *)
Definition proxied_request (req : request) (node : option string)
  : outgoing :=
  {| out_method := REQUEST_METHOD req;
     out_url := "http://" ++ str_of_node node ++ ":"
                ++ pretty (API_PORT cfg) ++ PATH_INFO req;
     out_data := json_dumps (flask_get_post_body req);
     out_authorization := req_authorization req;
     out_user_agent := user_agent |}.

(** The response the wrapper builds from the answer. *)
Definition proxied_response (r : upstream) : response :=
  {| status_code := up_status_code r; body := up_text r;
     mimetype := "application/json" |}.

(** [redirect_instance_request(func)]: [i] is
    [kwargs.get('instance_from_db_virt')], given by the [node] field
    of its record. *)
Definition redirect_instance_request {S} (func : M S reply)
           (req : request) (i : option (option string)) : M S reply :=
  match i with
  | Some node =>
      if bool_decide (node ≠ Some (NODE_NAME cfg)) then
        match requests_request (proxied_request req node) with
        | Some r => ret (Response (proxied_response r))
        | None => raise ConnectionError
        end
      else func
  | None => func
  end.

(** *** [Instances.post] *)

(** [str(uuid.uuid4())], n-th call. *)
Variable uuid4 : nat -> string.
(** The n-th number the random generator yields. *)
Variable randint : nat -> nat.
(** [SCHEDULER.place_instance(instance, network, candidates=...)]. *)
Variable place_instance :
  instance_rec -> list netdesc -> option (list string) -> result (list string).
(** Whether a driver call completes ([true]) or raises. *)
Variable driver_ok : action -> bool.

Definition new_uuid : M world string :=
  fun w => (Ok (uuid4 (uuids_drawn w)),
            set_draws (S (uuids_drawn w)) (randoms_drawn w) w).

(** Modelled from the spec: [db.add_event(object_type, object_uuid,
    operation, phase, duration, message)] appends an event; [duration]
    is [None] in every call of this handler. *)
Definition add_event (object_type object_uuid operation : string)
           (phase message : option string) : M world unit :=
  modify (emit (Event object_type object_uuid operation phase message)).

(** Modelled from the spec: [virt.from_db(uuid)], the instance
    rehydrated from its record, [None] without one. *)
Definition virt_from_db (uuid : string) : M world (option instance_rec) :=
  w ← get; ret (instances w !! uuid).

(** Modelled from the spec: [virt.from_definition(...)], which
    constructs the instance record: not placed, state ['initial']. *)
Definition virt_from_definition (uuid name : string) (disks : json)
           (memory_mb vcpus : Z) (ssh_key user_data : option string)
  : M world instance_rec :=
  let i := {| i_uuid := uuid; i_name := name; i_vcpus := vcpus;
              i_memory_mb := memory_mb; i_disks := disks;
              i_ssh_key := ssh_key; i_user_data := user_data;
              i_node := None; i_state := "initial" |} in
  modify (set_instances (<[uuid := i]>));; ret i.

(** Modelled from the spec: [db.update_instance_state(uuid, state)]. *)
Definition update_instance_state (uuid state : string) : M world unit :=
  modify (set_instances (alter (fun i =>
    {| i_uuid := i_uuid i; i_name := i_name i; i_vcpus := i_vcpus i;
       i_memory_mb := i_memory_mb i; i_disks := i_disks i;
       i_ssh_key := i_ssh_key i; i_user_data := i_user_data i;
       i_node := i_node i; i_state := state |}) uuid)).

(** Modelled from the spec: [db.place_instance(uuid, node)]. *)
Definition db_place_instance (uuid node : string) : M world unit :=
  modify (set_instances (alter (fun i =>
    {| i_uuid := i_uuid i; i_name := i_name i; i_vcpus := i_vcpus i;
       i_memory_mb := i_memory_mb i; i_disks := i_disks i;
       i_ssh_key := i_ssh_key i; i_user_data := i_user_data i;
       i_node := Some node; i_state := i_state i |}) uuid)).

(** Modelled from the spec: [net.from_db(uuid)], [None] for a network
    without a record; the object is identified by its uuid. *)
Definition net_from_db (uuid : string) : M world (option string) :=
  w ← get;
  ret (if bool_decide (uuid ∈ networks w) then Some uuid else None).

(** Modelled from the spec: [db.get_ipmanager(uuid)] loads the
    allocator of a network. *)
Definition get_ipmanager (uuid : string) : M world ipmanager :=
  w ← get;
  match ipmanagers w !! uuid with
  | Some ipm => ret ipm
  | None => raise (KeyError uuid)
  end.

(** Modelled from the spec: [db.persist_ipmanager(uuid, ipm.save())]
    writes it back. *)
Definition persist_ipmanager (uuid : string) (ipm : ipmanager)
  : M world unit :=
  modify (set_ipmanagers (<[uuid := ipm]>)).

(** Modelled from the spec: [ipm.reserve(addr)] is [False] on an
    address in use and otherwise takes it. *)
Definition reserve (ipm : ipmanager) (addr : string) : bool * ipmanager :=
  if bool_decide (addr ∈ ipm_in_use ipm) then (false, ipm)
  else (true, {| ipm_addresses := ipm_addresses ipm;
                 ipm_in_use := (ipm_in_use ipm ++ [addr])%list |}).

(** Modelled from the spec: [ipm.release(addr)] frees the address. *)
Definition release (ipm : ipmanager) (addr : string) : ipmanager :=
  {| ipm_addresses := ipm_addresses ipm;
     ipm_in_use := filter (fun a => a ≠ addr) (ipm_in_use ipm) |}.

(** Modelled from the spec: [ipm.get_random_free_address()] takes a
    free address drawn at random and raises on a full netblock. *)
Definition get_random_free_address (ipm : ipmanager)
  : M world (string * ipmanager) :=
  fun w =>
    let free := filter (fun a => a ∉ ipm_in_use ipm) (ipm_addresses ipm) in
    match free !! (randint (randoms_drawn w) mod length free)%nat with
    | Some addr =>
        (Ok (addr, (reserve ipm addr).2),
         set_draws (uuids_drawn w) (S (randoms_drawn w)) w)
    | None => (Raise (Exception "no free addresses"), w)
    end.

(** Modelled from the spec: [db.create_network_interface(uuid,
    netdesc, instance_uuid, order)], a new record in state
    ['initial']. *)
Definition create_network_interface (uuid network_uuid address model
                                     instance_uuid : string) (order : nat)
  : M world unit :=
  modify (set_interfaces (fun l =>
    (l ++ [{| if_uuid := uuid; if_instance_uuid := instance_uuid;
              if_network_uuid := network_uuid; if_ipv4 := address;
              if_model := model; if_order := order;
              if_state := "initial" |}])%list)).

(** Modelled from the spec: [db.get_instance_interfaces(uuid)], the
    interface records of one instance. *)
Definition get_instance_interfaces (uuid : string) (w : world)
  : list interface_rec :=
  filter (fun f => if_instance_uuid f = uuid) (interfaces w).

(** Modelled from the spec:
    [db.update_network_interface_state(uuid, state)]. *)
Definition update_network_interface_state (uuid state : string)
  : M world unit :=
  modify (set_interfaces (fmap (fun f =>
    if bool_decide (if_uuid f = uuid) then
      {| if_uuid := if_uuid f; if_instance_uuid := if_instance_uuid f;
         if_network_uuid := if_network_uuid f; if_ipv4 := if_ipv4 f;
         if_model := if_model f; if_order := if_order f;
         if_state := state |}
    else f))).

(** Modelled from the spec: [with etcd.get_lock(name, ttl=...) as _:
    body], released on every way out.  The lock is
    recorded when taken and when released; waiting for a lock held
    elsewhere is not modelled. *)
Definition get_lock {A} (name : string) (ttl : Z) (body : M world A)
  : M world A :=
  with_ (modify (emit (LockAcquire name ttl)))
        (modify (emit (LockRelease name))) body.

(** A call into a driver. *)
Definition call (a : action) : M world unit :=
  if driver_ok a then modify (emit (Driver a))
  else raise (Exception "driver call failed").

(** The nested function [error_with_cleanup]; [allocations] is the
    variable of the enclosing handler at the time of the call. *)
Definition error_with_cleanup
           (allocations : list (string * list (string * nat)))
           (status : Z) (message : string) : M world response :=
  for_ allocations (fun '(network_uuid, addrs) =>
    n ← net_from_db network_uuid;
    for_ addrs (fun '(addr, _) =>
      uuid ← match n with
             | Some u => ret u
             | None => raise (AttributeError
                                "'NoneType' object has no attribute 'uuid'")
             end;
      get_lock ("sf/ipmanager/" ++ uuid) 120
        (ipm ← get_ipmanager uuid;
         persist_ipmanager uuid (release ipm addr))));;
  ret (error status message).

(** The body of [for netdesc in network:]. *)
Definition provision_one (instance_uuid : string) (st : loop_state)
           (netdesc : netdesc) : M world loop_state :=
  (if falsy (nd_network_uuid netdesc) then
     error_with_cleanup (allocations st) 404 "network not specified";;
     ret tt
   else ret tt);;
  network_uuid ← match nd_network_uuid netdesc with
                 | Some u => ret u
                 | None => raise (KeyError "network_uuid")
                 end;
  nets' ← (if bool_decide (network_uuid ∉ nets st) then
             n ← net_from_db network_uuid;
             (match n with
              | None =>
                  error_with_cleanup (allocations st) 404
                    ("network " ++ network_uuid ++ " not found");;
                  ret tt
              | Some _ => ret tt
              end);;
             match n with
             | Some u => call (NetCreate u);;
                         ret (nets st ++ [network_uuid])%list
             | None => raise (AttributeError
                                "'NoneType' object has no attribute 'create'")
             end
           else ret (nets st));
  '(address, allocations') ←
    get_lock ("sf/ipmanager/" ++ network_uuid) 120
      (let allocations' := setdefault network_uuid (allocations st) in
       ipm ← get_ipmanager network_uuid;
       '(address, ipm') ←
         (if falsy (nd_address netdesc) then get_random_free_address ipm
          else
            let address := default "" (nd_address netdesc) in
            let '(ok, ipm') := reserve ipm address in
            (if negb ok then
               error_with_cleanup allocations' 409
                 ("address " ++ address ++ " in use");;
               ret tt
             else ret tt);;
            ret (address, ipm'));
       persist_ipmanager network_uuid ipm';;
       ret (address,
            append_at network_uuid (address, order st) allocations'));
  let model := if falsy (nd_model netdesc) then "virtio"
               else default "" (nd_model netdesc) in
  uuid ← new_uuid;
  create_network_interface uuid network_uuid address model instance_uuid
                           (order st);;
  ret {| order := S (order st); nets := nets';
         allocations := allocations' |}.

(** The request the handler sends to the node the instance was
    placed on. *)
Definition placed_request (placed_on : string) (body : json) : outgoing :=
  {| out_method := "POST";
     out_url := "http://" ++ placed_on ++ ":" ++ pretty (API_PORT cfg)
                ++ "/instances";
     out_data := json_dumps body;
     out_authorization := None;
     out_user_agent := user_agent |}.

(** [Instances.post]. *)
Definition Instances_post (req : request) (name : string) (cpus memory : Z)
           (network : list netdesc) (disk : json)
           (ssh_key user_data placed_on instance_uuid : option string)
  : M world reply :=
  let name := sanitize name in
  instance_uuid ←
    (if falsy instance_uuid then
       u ← new_uuid;
       add_event "instance" u "uuid allocated" None None;;
       ret u
     else ret (default "" instance_uuid));
  found ← virt_from_db instance_uuid;
  instance ← match found with
             | Some i => ret i
             | None => virt_from_definition instance_uuid name disk
                         (memory * 1024) cpus ssh_key user_data
             end;
  let no_capacity : M world (string + reply) :=
    add_event "instance" instance_uuid "schedule" (Some "failed")
              (Some "insufficient resources");;
    update_instance_state instance_uuid "error";;
    ret (inr (Response (error 507 "Insufficient capacity"))) in
  placement ←
    (if falsy placed_on then
       match place_instance instance network None with
       | Raise e => raise e
       | Ok [] => no_capacity
       | Ok (first :: _) =>
           db_place_instance instance_uuid first;;
           add_event "instance" instance_uuid "placement" None (Some first);;
           ret (inl first)
       end
     else
       let placed_on := default "" placed_on in
       match place_instance instance network (Some [placed_on]) with
       | Ok [] => no_capacity
       | Ok (_ :: _) => ret (inl placed_on)
       | Raise (CandidateNodeNotFoundException node) =>
           ret (inr (Response
                       (error_in
                          (Some (format_exc
                                   (CandidateNodeNotFoundException node)))
                          404 ("Node not found: " ++ node))))
       | Raise e => raise e
       end);
  match placement with
  | inr early => ret early
  | inl placed_on =>
      if bool_decide (placed_on ≠ NODE_NAME cfg) then
        body ← match flask_get_post_body req with
               | JObj members =>
                   ret (JObj (json_set "instance_uuid" (JStr instance_uuid)
                                (json_set "placed_on" (JStr placed_on)
                                          members)))
               | _ => raise (TypeError
                               "object does not support item assignment")
               end;
        modify (emit (Sent (placed_request placed_on body)));;
        match requests_request (placed_request placed_on body) with
        | Some r => ret (Response (proxied_response r))
        | None => raise ConnectionError
        end
      else
        st ← fold_ network {| order := 0%nat; nets := []; allocations := [] |}
                   (provision_one instance_uuid);
        for_ (nets st) (fun u =>
          call (NetEnsureMesh u);; call (NetUpdateDhcp u));;
        call (InstanceCreate instance_uuid);;
        w ← get;
        for_ (get_instance_interfaces instance_uuid w) (fun iface =>
          update_network_interface_state (if_uuid iface) "created");;
        w ← get;
        ret (Created (instances w !! instance_uuid))
  end.

(** The handler as it is mounted, under [generic_wrapper]. *)
Definition Instances_post_wrapped (req : request) (name : string)
           (cpus memory : Z) (network : list netdesc) (disk : json)
           (ssh_key user_data placed_on instance_uuid : option string)
  : M world reply :=
  generic_wrapper
    (Instances_post req name cpus memory network disk ssh_key user_data
                    placed_on instance_uuid).

End WithEnvironment.

End Api.

(** * Properties *)

(** ** The supervisor *)

Module SupervisorProofs.
Import Supervisor.

(** Every key of the child table is a role name: what [_start_daemon]
    maintains, since it stores [DAEMONS[d] = pid]. *)
Definition str_keyed (w : world) : Prop :=
  map_Forall (fun k _ => match k with KStr _ => True | KInt _ => False end)
             (DAEMONS w).

#[global] Instance str_keyed_dec w : Decision (str_keyed w).
Proof.
  unfold str_keyed. apply map_Forall_dec. intros [s|z] _; apply _.
Defined.

Lemma str_keyed_get w wpid :
  str_keyed w -> DAEMONS_get wpid w = KStr "unknown".
Proof.
  intros Hk. unfold DAEMONS_get.
  destruct (DAEMONS w !! KInt wpid) as [v|] eqn:E; [|done].
  by apply Hk in E.
Qed.

Lemma start_daemon_str_keyed fork_pid d w :
  str_keyed w -> str_keyed (_start_daemon fork_pid (KStr d) w).2.
Proof.
  intros Hk. unfold str_keyed in *. cbn.
  by apply map_Forall_insert_2.
Qed.

Lemma start_daemons_str_keyed fork_pid w :
  str_keyed w -> str_keyed (start_daemons fork_pid w).2.
Proof.
  intros Hk. unfold start_daemons. cbn.
  unfold str_keyed in *. cbn.
  repeat apply map_Forall_insert_2; done.
Qed.

(** A monitor tick on a table keyed by role names: whatever
    [os.waitpid] reports, nothing is forked and the table is left as
    it was. *)
Lemma monitor_tick_inert fork_pid w :
  str_keyed w ->
  let w' := (monitor_tick fork_pid w).2 in
  DAEMONS w' = DAEMONS w /\ children w' = children w /\
  nforks w' = nforks w.
Proof.
  intros Hk. unfold monitor_tick, mbind, M_bind, bind, os_waitpid.
  destruct (zombies w) as [|pid rest] eqn:Ez.
  - destruct (children w) eqn:Ec; cbn; by rewrite ?Ec.
  - cbn. case_bool_decide as Hp; cbn; [|done].
    rewrite (str_keyed_get _ pid) by done.
    rewrite bool_decide_false by (intros H; by apply H). done.
Qed.

Lemma monitor_loop_inert fork_pid n w :
  str_keyed w ->
  let w' := (monitor_loop fork_pid n w).2 in
  DAEMONS w' = DAEMONS w /\ children w' = children w /\
  nforks w' = nforks w.
Proof.
  revert w. induction n as [|n IH]; intros w Hk; [done|].
  cbn. unfold mbind, M_bind, bind.
  destruct (monitor_tick_inert fork_pid w Hk) as (Hd & Hc & Hf).
  destruct (monitor_tick fork_pid w) as [[[]|e] w1] eqn:Et; cbn in *.
  - assert (Hk1 : str_keyed w1) by (unfold str_keyed; by rewrite Hd).
    destruct (IH w1 Hk1) as (Hd' & Hc' & Hf'). cbn in *.
    by rewrite Hd', Hc', Hf'.
  - done.
Qed.

(** C2 (the code does not do this).  The specification says that when
    the monitor loop sees the child of a role exit, it forks a new child
    for that role and records it in [DAEMONS].  On the code the table is
    keyed by role name and looked up by pid, so the lookup always yields
    ['unknown']: once the child of role [d] has died, however many
    ticks pass, no child runs [d], nothing was forked, and [DAEMONS[d]]
    still holds the pid of the dead child. *)
Theorem exited_child_is_never_reforked
        (fork_pid : nat -> Z) (w : world) (d : string) (pid : Z)
        (ticks : nat) :
  str_keyed w ->
  DAEMONS w !! KStr d = Some pid ->
  (forall p, (p, KStr d) ∈ children w -> p = pid) ->
  let w' := (monitor_loop fork_pid ticks (kill pid w)).2 in
  ~ runs d w' /\ DAEMONS w' !! KStr d = Some pid /\ nforks w' = nforks w.
Proof.
  intros Hk Hd Huniq.
  assert (Hk' : str_keyed (kill pid w)).
  { unfold kill. case_bool_decide; done. }
  destruct (monitor_loop_inert fork_pid ticks _ Hk') as (HD & HC & HF).
  cbn zeta. rewrite HD, HF. unfold runs. rewrite HC.
  split; [|split].
  - unfold kill. case_bool_decide as Hin; cbn.
    + intros ((p & k) & Hkd & Hel)%list_elem_of_fmap. cbn in Hkd. subst k.
      apply list_elem_of_filter in Hel as [Hne Hel]. cbn in Hne.
      by apply Hne, Huniq.
    + intros ((p & k) & Hkd & Hel)%list_elem_of_fmap. cbn in Hkd. subst k.
      apply Hin. apply list_elem_of_fmap. exists (p, KStr d). split; [|done].
      cbn. symmetry. by apply Huniq.
  - unfold kill. by case_bool_decide.
  - unfold kill. by case_bool_decide.
Qed.

(** The supervisor of one node after it has forked its six workers,
    children numbered from 1000. *)
Definition booted : world :=
  (start_daemons (fun n => 1000 + Z.of_nat n) (initial_world [] [] [])).2.

Lemma exited_child_is_never_reforked_witness :
  str_keyed booted /\
  DAEMONS booted !! KStr "queues" = Some 1004 /\
  (forall p, (p, KStr "queues") ∈ children booted -> p = 1004) /\
  let w' := (monitor_loop (fun n => 1000 + Z.of_nat n) 3
                          (kill 1004 booted)).2 in
  ~ runs "queues" w' /\ DAEMONS w' !! KStr "queues" = Some 1004 /\
  nforks w' = nforks booted.
Proof.
  assert (H1 : str_keyed booted) by (apply start_daemons_str_keyed; done).
  assert (H2 : DAEMONS booted !! KStr "queues" = Some 1004)
    by (vm_compute; reflexivity).
  assert (H3 : forall p, (p, KStr "queues") ∈ children booted -> p = 1004).
  { intros p Hp. vm_compute in Hp.
    repeat (apply elem_of_cons in Hp as [Hp|Hp]; [congruence|]).
    by apply elem_of_nil in Hp. }
  split; [exact H1|]. split; [exact H2|]. split; [exact H3|].
  exact (exited_child_is_never_reforked
           (fun n => 1000 + Z.of_nat n) booted "queues" 1004 3 H1 H2 H3).
Defined.

(** *** Restore *)

Section Restore.
Variable NODE_NAME : string.
Variable driver_ok : action -> bool.

(** Restoring instance [u] reaches [i.create()] and the driver
    raises there. *)
Definition create_fails (w : world) (u : string) : bool :=
  match virt_from_db u w with
  | None => false
  | Some i =>
      bool_decide (default "unknown" (inst_power_state i) ∈ restorable_states)
      && negb (driver_ok (InstanceCreate (inst_uuid i)))
  end.

(** What no step of [restore_instances] touches. *)
Definition same_store (w w' : world) : Prop :=
  db_instances w' = db_instances w /\ queue w' = queue w.

Lemma same_store_trans w1 w2 w3 :
  same_store w1 w2 -> same_store w2 w3 -> same_store w1 w3.
Proof. intros [? ?] [? ?]. split; congruence. Qed.

Lemma create_fails_same_store w w' u :
  same_store w w' -> create_fails w' u = create_fails w u.
Proof.
  intros [Hi _]. unfold create_fails, virt_from_db. by rewrite Hi.
Qed.

Lemma restore_network_ok network w :
  exists w', restore_network driver_ok network w = (Ok tt, w') /\
             same_store w w'.
Proof.
  unfold restore_network, try_except, mbind, M_bind, bind, call,
    ignore_exception. cbn.
  destruct (net_from_db network w) as [u|]; cbn.
  - repeat (match goal with
            | |- context [driver_ok ?a] => destruct (driver_ok a); cbn
            end);
      eexists; (split; [reflexivity|done]).
  - eexists; (split; [reflexivity|done]).
Qed.

Lemma restore_networks_ok networks w :
  exists w', for_ networks (restore_network driver_ok) w = (Ok tt, w') /\
             same_store w w'.
Proof.
  revert w. induction networks as [|n ns IH]; intros w; cbn.
  - by exists w.
  - unfold bind.
    destruct (restore_network_ok n w) as (w1 & -> & H1).
    destruct (IH w1) as (w2 & -> & H2).
    exists w2. split; [done|]. by eapply same_store_trans.
Qed.

(** One instance: either its restore fails, and then the handler
    itself raises [NameError] before anything is enqueued, or the
    step completes. *)
Lemma restore_instance_step u w :
  exists w', same_store w w' /\
    restore_instance driver_ok u w =
      (if create_fails w u then Raise (NameError "node") else Ok tt, w').
Proof.
  unfold restore_instance, create_fails, try_except, mbind, M_bind, bind,
    call, ignore_exception. cbn.
  destruct (virt_from_db u w) as [i|]; cbn.
  - destruct (decide (default "unknown" (inst_power_state i)
                        ∈ restorable_states)) as [Hs|Hs].
    + rewrite (bool_decide_true _ Hs).
      rewrite bool_decide_false by (intros H; by apply H). cbn.
      destruct (driver_ok (InstanceCreate (inst_uuid i))); cbn;
        eexists; (split; [|reflexivity]); done.
    + rewrite (bool_decide_false _ Hs), bool_decide_true by done. cbn.
      eexists; (split; [|reflexivity]); done.
  - eexists; (split; [|reflexivity]); done.
Qed.

Lemma restore_loop_raises instances w u :
  u ∈ instances -> create_fails w u = true ->
  exists w', for_ instances (restore_instance driver_ok) w
             = (Raise (NameError "node"), w') /\ same_store w w'.
Proof.
  revert w. induction instances as [|x xs IH]; intros w Hin Hf.
  - by apply elem_of_nil in Hin.
  - cbn. unfold bind.
    destruct (restore_instance_step x w) as (w1 & H1 & ->).
    destruct (create_fails w x) eqn:Ex.
    + by exists w1.
    + apply elem_of_cons in Hin as [->|Hin]; [congruence|].
      destruct (IH w1 Hin) as (w2 & -> & H2).
      { by rewrite (create_fails_same_store w w1). }
      exists w2. split; [done|]. by eapply same_store_trans.
Qed.

(** C3 (the code does not do this).  The specification says a failed
    restore of one instance is logged, a delete with reason ['error']
    is enqueued, and restore goes on.  On the code the handler
    evaluates the unbound name [node]: as soon as the restore of one
    instance of this node fails, [restore_instances] ends by raising
    [NameError], and the delete queue is as it was. *)
Theorem restore_failure_raises_out (w : world) (u : string) :
  u ∈ (collect NODE_NAME w).2 ->
  create_fails w u = true ->
  exists w', restore_instances NODE_NAME driver_ok w
             = (Raise (NameError "node"), w') /\
             queue w' = queue w.
Proof.
  intros Hin Hf. unfold restore_instances, mbind, M_bind, bind. cbn.
  destruct (collect NODE_NAME w) as [networks instances] eqn:Ec.
  cbn in Hin.
  destruct (restore_networks_ok networks w) as (w1 & -> & H1).
  destruct (restore_loop_raises instances w1 u Hin) as (w2 & -> & H2).
  { by rewrite (create_fails_same_store w w1). }
  exists w2. split; [done|].
  by destruct (same_store_trans _ _ _ H1 H2).
Qed.

End Restore.

(** Two instances on node ["n1"]; the hypervisor refuses the first. *)
Definition two_instances : world :=
  initial_world
    [ {| inst_uuid := "i-1"; inst_node := "n1"; inst_power_state := Some "on" |};
      {| inst_uuid := "i-2"; inst_node := "n1"; inst_power_state := Some "on" |} ]
    [] [].

Definition refuse_first (a : action) : bool :=
  match a with
  | InstanceCreate u => negb (String.eqb u "i-1")
  | _ => true
  end.

Lemma restore_failure_raises_out_witness :
  "i-1" ∈ (collect "n1" two_instances).2 /\
  create_fails refuse_first two_instances "i-1" = true /\
  exists w', restore_instances "n1" refuse_first two_instances
             = (Raise (NameError "node"), w') /\
             queue w' = queue two_instances.
Proof.
  assert (H1 : "i-1" ∈ (collect "n1" two_instances).2)
    by (vm_compute; constructor).
  assert (H2 : create_fails refuse_first two_instances "i-1" = true)
    by (vm_compute; reflexivity).
  split; [exact H1|]. split; [exact H2|].
  exact (restore_failure_raises_out "n1" refuse_first two_instances "i-1"
                                    H1 H2).
Defined.

(** On that input the second instance is never handed to the
    hypervisor and nothing is enqueued. *)
Example restore_stops_at_first_failure :
  let '(r, w') := restore_instances "n1" refuse_first two_instances in
  r = Raise (NameError "node") /\ queue w' = [] /\ done_actions w' = [].
Proof. vm_compute. done. Qed.

(** And [main] ends there: the six workers were forked, but the monitor
    loop is never entered (the only heartbeat is the one at start). *)
Example main_stops_at_first_failure :
  let '(r, w') := main "n1" (fun n => 1000 + Z.of_nat n) refuse_first 5
                       two_instances in
  r = Raise (NameError "node") /\ nforks w' = 6%nat /\ heartbeats w' = 1%nat.
Proof. vm_compute. done. Qed.

End SupervisorProofs.

(** ** The REST handlers *)

Module ApiProofs.
Import Api.

Section Handlers.
Variable cfg : config.
Variable TESTING : bool.
Variable json_dumps : json -> string.
Variable json_loads : string -> option json.
Variable user_agent : string.
Variable create_access_token : string -> string.

Abbreviation error := (error cfg TESTING json_dumps).
Abbreviation Auth_post :=
  (Auth_post cfg TESTING json_dumps create_access_token).

(** The answer that carries a token for namespace [ns]. *)
Definition token_for (ns : string) : reply :=
  Payload (JObj [("access_token", JStr (create_access_token ns))]).

Lemma token_is_not_an_error ns r : token_for ns <> Response r.
Proof. discriminate. Qed.

(** C10.  [POST /auth] with a namespace and a password answers with an
    access token exactly when the password is in the list stored for
    the namespace, and with 401 otherwise; a namespace without a
    record has the empty list, so it gets 401; a missing (absent or
    empty) namespace or password gets 400. *)
Theorem auth_post_token_iff_password_listed
        (store : gmap string password_rec) (ns pw : string) :
  ns <> "" -> pw <> "" ->
  (Auth_post store (Some ns) (Some pw) = token_for ns
     <-> pw ∈ _get_password store ns) /\
  (pw ∉ _get_password store ns ->
     Auth_post store (Some ns) (Some pw) = Response (error 401 "Unauthorized")) /\
  (store !! ns = None ->
     Auth_post store (Some ns) (Some pw) = Response (error 401 "Unauthorized")) /\
  (forall p, Auth_post store None p
             = Response (error 400 "Missing namespace in request")) /\
  (forall p, Auth_post store (Some "") p
             = Response (error 400 "Missing namespace in request")) /\
  Auth_post store (Some ns) None
    = Response (error 400 "Missing password in request") /\
  Auth_post store (Some ns) (Some "")
    = Response (error 400 "Missing password in request").
Proof.
  intros Hns Hpw.
  assert (Hfn : falsy (Some ns) = false) by (cbn; by rewrite bool_decide_false).
  assert (Hfp : falsy (Some pw) = false) by (cbn; by rewrite bool_decide_false).
  assert (Hno : pw ∉ _get_password store ns ->
                Auth_post store (Some ns) (Some pw)
                = Response (error 401 "Unauthorized")).
  { intros Hn. unfold Api.Auth_post. rewrite Hfn, Hfp. cbn.
    by rewrite bool_decide_true. }
  split_and!.
  - split.
    + intros Heq.
      destruct (decide (pw ∈ _get_password store ns)) as [|Hn]; [done|].
      rewrite (Hno Hn) in Heq. discriminate.
    + intros Hin. unfold Api.Auth_post. rewrite Hfn, Hfp. cbn.
      rewrite bool_decide_false; [done|]. intros Hn. by apply Hn.
  - exact Hno.
  - intros Hnone. apply Hno. unfold _get_password. rewrite Hnone.
    apply not_elem_of_nil.
  - intros p. reflexivity.
  - intros p. reflexivity.
  - unfold Api.Auth_post. by rewrite Hfn.
  - unfold Api.Auth_post. by rewrite Hfn.
Qed.

End Handlers.

(** A store with one namespace. *)
Definition one_namespace : gmap string password_rec :=
  {[ "acme" := {| rec_passwords := Some ["s3cret"; "hunter2"] |} ]}.

Definition plain_config : config :=
  {| NODE_NAME := "node-1"; NODE_IP := "10.1.0.1";
     NETWORK_NODE_IP := "10.1.0.1"; API_PORT := 13000;
     INCLUDE_TRACEBACKS := "0" |}.

Lemma auth_post_token_iff_password_listed_witness :
  "acme" <> "" /\ "hunter2" <> "" /\
  Auth_post plain_config false (fun _ => "") (fun ns => "token:" ++ ns)
            one_namespace (Some "acme") (Some "hunter2")
  = token_for (fun ns => "token:" ++ ns) "acme".
Proof.
  assert (H1 : "acme" <> "") by discriminate.
  assert (H2 : "hunter2" <> "") by discriminate.
  split; [exact H1|]. split; [exact H2|].
  apply (proj2 (proj1 (auth_post_token_iff_password_listed
                         plain_config false (fun _ => "")
                         (fun ns => "token:" ++ ns)
                         one_namespace "acme" "hunter2" H1 H2))).
  vm_compute. repeat constructor.
Defined.

(** *** Proxying to the owning node *)

(** The claim in the specification's words: the request is proxied as
    it is (method, path, body, Authorization) to
    [http://<node>:<API_PORT><path>], and the answer is forwarded as
    it is (status code, body, content type). *)
Definition proxied_verbatim (cfg : config) (req : request) (node : string)
           (sent : outgoing) (answer : upstream) (resp : response) : Prop :=
  out_method sent = REQUEST_METHOD req /\
  out_url sent = "http://" ++ node ++ ":" ++ pretty (API_PORT cfg)
                 ++ PATH_INFO req /\
  out_data sent = req_data req /\
  out_authorization sent = req_authorization req /\
  status_code resp = up_status_code answer /\
  body resp = up_text answer /\
  Some (mimetype resp) = up_content_type answer.

(** What the code does instead: the body sent is the JSON the request
    body parses to, serialised again, and the content type of the
    response is always [application/json]. *)
Definition proxied_as_json (cfg : config) (json_dumps : json -> string)
           (json_loads : string -> option json)
           (req : request) (node : string)
           (sent : outgoing) (answer : upstream) (resp : response) : Prop :=
  out_method sent = REQUEST_METHOD req /\
  out_url sent = "http://" ++ node ++ ":" ++ pretty (API_PORT cfg)
                 ++ PATH_INFO req /\
  out_data sent = json_dumps (flask_get_post_body json_loads req) /\
  out_authorization sent = req_authorization req /\
  status_code resp = up_status_code answer /\
  body resp = up_text answer /\
  mimetype resp = "application/json".

(** C7, as amended.  For a request on an instance whose record names
    another node, the wrapper sends one request to
    [http://<node>:<API_PORT><path>] with the same method and
    Authorization header and with the JSON form of the body, never
    calls the wrapped handler, and answers with the status code and
    text of what came back, typed [application/json]. *)
Theorem redirect_proxies_as_json
        (cfg : config) (json_dumps : json -> string)
        (json_loads : string -> option json) (user_agent : string)
        (requests_request : outgoing -> option upstream)
        (S : Type) (func : M S reply) (req : request) (node : string)
        (answer : upstream) (w : S) :
  node <> NODE_NAME cfg ->
  requests_request
    (proxied_request cfg json_dumps json_loads user_agent req (Some node))
  = Some answer ->
  redirect_instance_request cfg json_dumps json_loads user_agent
                            requests_request func req (Some (Some node)) w
  = (Ok (Response (proxied_response answer)), w) /\
  proxied_as_json cfg json_dumps json_loads req node
    (proxied_request cfg json_dumps json_loads user_agent req (Some node))
    answer (proxied_response answer).
Proof.
  intros Hnode Hanswer. split.
  - unfold redirect_instance_request.
    rewrite bool_decide_true by congruence. by rewrite Hanswer.
  - by repeat split.
Qed.

(** A request for an instance on ["node-2"], received on ["node-1"],
    and a gateway error page that comes back. *)
Definition poweroff_request : request :=
  {| REQUEST_METHOD := "POST"; PATH_INFO := "/instances/i-1/poweroff";
     req_data := ""; req_json := None;
     req_authorization := Some "Bearer abc" |}.

Definition error_page : upstream :=
  {| up_status_code := 502; up_text := "<html>Bad Gateway</html>";
     up_content_type := Some "text/html" |}.

Lemma redirect_proxies_as_json_witness :
  "node-2" <> NODE_NAME plain_config /\
  redirect_instance_request plain_config (fun _ => "{}") (fun _ => None)
    "sf" (fun _ => Some error_page) (ret (Payload JNull) : M unit reply)
    poweroff_request (Some (Some "node-2")) tt
  = (Ok (Response {| status_code := 502; body := "<html>Bad Gateway</html>";
                     mimetype := "application/json" |}), tt).
Proof.
  assert (H1 : "node-2" <> NODE_NAME plain_config) by discriminate.
  split; [exact H1|].
  exact (proj1 (redirect_proxies_as_json
                  plain_config (fun _ => "{}") (fun _ => None) "sf"
                  (fun _ => Some error_page) unit (ret (Payload JNull))
                  poweroff_request "node-2" error_page tt H1 eq_refl)).
Defined.

(** C7, as stated, fails: the content type of the answer is not kept
    (and neither is, in general, the body of the request). *)
Lemma redirect_is_not_verbatim :
  ~ (forall (cfg : config) (json_dumps : json -> string)
            (json_loads : string -> option json) (user_agent : string)
            (req : request) (node : string) (answer : upstream),
        node <> NODE_NAME cfg ->
        proxied_verbatim cfg req node
          (proxied_request cfg json_dumps json_loads user_agent req (Some node))
          answer (proxied_response answer)).
Proof.
  intros H.
  destruct (H plain_config (fun _ => "{}") (fun _ => None) "sf"
              poweroff_request "node-2" error_page)
    as (_ & _ & _ & _ & _ & _ & Hct); [discriminate|].
  discriminate Hct.
Qed.

(** The body is not kept either, whatever [json.dumps] is: a request
    without a body and one whose body is [{}] are proxied with the
    same data. *)
Lemma proxied_body_is_not_verbatim
      (cfg : config) (json_dumps : json -> string)
      (json_loads : string -> option json) (user_agent : string) :
  ~ (forall (req : request) (node : string),
        out_data (proxied_request cfg json_dumps json_loads user_agent
                                  req (Some node))
        = req_data req).
Proof.
  intros H.
  pose proof (H poweroff_request "node-2") as H1.
  pose proof (H {| REQUEST_METHOD := "POST";
                   PATH_INFO := "/instances/i-1/poweroff";
                   req_data := "{}"; req_json := Some (JObj []);
                   req_authorization := None |} "node-2") as H2.
  vm_compute in H1, H2. congruence.
Qed.

(** *** Instance creation *)

Section Create.
Variable cfg : config.
Variable TESTING : bool.
Variable json_dumps : json -> string.
Variable json_loads : string -> option json.
Variable user_agent : string.
Variable requests_request : outgoing -> option upstream.
Variable format_exc : exn -> string.
Variable uuid4 : nat -> string.
Variable randint : nat -> nat.
Variable place_instance :
  instance_rec -> list netdesc -> option (list string) -> result (list string).
Variable driver_ok : action -> bool.

Abbreviation post :=
  (Instances_post_wrapped cfg TESTING json_dumps json_loads user_agent
     requests_request format_exc uuid4 randint place_instance driver_ok).

(** The uuid the handler works with, the instance it hands to the
    scheduler, and the candidate list it passes. *)
Definition request_uuid (instance_uuid : option string) (w : world)
  : string :=
  if falsy instance_uuid then uuid4 (uuids_drawn w)
  else default "" instance_uuid.

Definition request_instance (name : string) (cpus memory : Z) (disk : json)
           (ssh_key user_data instance_uuid : option string) (w : world)
  : instance_rec :=
  let uuid := request_uuid instance_uuid w in
  match instances w !! uuid with
  | Some i => i
  | None => {| i_uuid := uuid; i_name := sanitize name; i_vcpus := cpus;
               i_memory_mb := memory * 1024; i_disks := disk;
               i_ssh_key := ssh_key; i_user_data := user_data;
               i_node := None; i_state := "initial" |}
  end.

Definition request_candidates (placed_on : option string)
  : option (list string) :=
  if falsy placed_on then None else Some [default "" placed_on].

(** C6.  When the scheduler returns the empty list for a create
    request, the handler answers 507 'Insufficient capacity', the
    instance is in state ['error'], and the interface records (and
    the IP managers) are as they were. *)
Theorem no_capacity_is_507
        (req : request) (name : string) (cpus memory : Z)
        (network : list netdesc) (disk : json)
        (ssh_key user_data placed_on instance_uuid : option string)
        (w : world) :
  place_instance
    (request_instance name cpus memory disk ssh_key user_data
                      instance_uuid w)
    network (request_candidates placed_on) = Ok [] ->
  exists w',
    post req name cpus memory network disk ssh_key user_data placed_on
         instance_uuid w
    = (Ok (Response (error cfg TESTING json_dumps 507
                           "Insufficient capacity")), w') /\
    i_state <$> (instances w' !! request_uuid instance_uuid w)
      = Some "error" /\
    interfaces w' = interfaces w /\
    ipmanagers w' = ipmanagers w.
Proof.
  intros Hplace.
  unfold Instances_post_wrapped, generic_wrapper, try_except,
    Instances_post, virt_from_db, virt_from_definition, mbind, M_bind,
    mret, M_ret, bind, get, ret, modify.
  unfold request_instance, request_candidates, request_uuid in *.
  destruct (falsy instance_uuid) eqn:Hu; cbn;
    match goal with
    | |- context [instances w !! ?u] =>
        destruct (instances w !! u) as [i|] eqn:Hi
    end; cbn;
    destruct (falsy placed_on) eqn:Hp; cbn; rewrite Hplace; cbn;
    eexists; (split; [reflexivity|]); cbn;
    rewrite lookup_alter_eq, ?lookup_insert_eq, ?Hi; done.
Qed.

Lemma bind_Ok_inv {S A B} (m : M S A) (k : A -> M S B) w x w' :
  bind m k w = (Ok x, w') ->
  exists a w1, m w = (Ok a, w1) /\ k a w1 = (Ok x, w').
Proof.
  unfold bind. destruct (m w) as [[a|e] w1]; [|discriminate].
  intros H. by exists a, w1.
Qed.

(** Every response object [Instances.post] returns is the 507, the
    404 for an unknown candidate node, or the answer of another node:
    the value of [error_with_cleanup] is never the handler's result. *)
Lemma post_responses
      (req : request) (name : string) (cpus memory : Z)
      (network : list netdesc) (disk : json)
      (ssh_key user_data placed_on instance_uuid : option string)
      (w w' : world) (r : response) :
  Instances_post cfg TESTING json_dumps json_loads user_agent
    requests_request format_exc uuid4 randint place_instance driver_ok
    req name cpus memory network disk ssh_key user_data placed_on
    instance_uuid w = (Ok (Response r), w') ->
  status_code r = 507 \/ status_code r = 404 \/
  exists answer, r = proxied_response answer.
Proof.
  unfold Instances_post. unfold mbind, M_bind.
  intros (u & w1 & _ & H)%bind_Ok_inv.
  apply bind_Ok_inv in H as (found & w2 & _ & H).
  apply bind_Ok_inv in H as (inst & w3 & _ & H).
  apply bind_Ok_inv in H as (placement & w4 & Hpl & H).
  destruct placement as [node|early].
  - case_bool_decide.
    + apply bind_Ok_inv in H as (b & w5 & _ & H).
      apply bind_Ok_inv in H as ([] & w6 & _ & H).
      destruct (requests_request _) as [answer|]; [|discriminate].
      injection H as <- _. right; right. by exists answer.
    + apply bind_Ok_inv in H as (st & w5 & _ & H).
      apply bind_Ok_inv in H as ([] & w6 & _ & H).
      apply bind_Ok_inv in H as ([] & w7 & _ & H).
      apply bind_Ok_inv in H as (wa & w8 & _ & H).
      apply bind_Ok_inv in H as ([] & w9 & _ & H).
      apply bind_Ok_inv in H as (wb & w10 & _ & H).
      discriminate.
  - injection H as -> _.
    destruct (falsy placed_on).
    + destruct (place_instance _ _ _) as [[|c cs]|e]; [| |discriminate].
      * apply bind_Ok_inv in Hpl as ([] & ? & _ & Hpl).
        apply bind_Ok_inv in Hpl as ([] & ? & _ & Hpl).
        injection Hpl as <- _. by left.
      * apply bind_Ok_inv in Hpl as ([] & ? & _ & Hpl).
        apply bind_Ok_inv in Hpl as ([] & ? & _ & Hpl).
        discriminate.
    + destruct (place_instance _ _ _) as [[|c cs]|e].
      * apply bind_Ok_inv in Hpl as ([] & ? & _ & Hpl).
        apply bind_Ok_inv in Hpl as ([] & ? & _ & Hpl).
        injection Hpl as <- _. by left.
      * discriminate.
      * destruct e; try discriminate.
        injection Hpl as <- _. right; by left.
Qed.

End Create.

(** The scenario of the specification: network ["net-1"] has
    10.0.0.5 reserved, and a create request asks for that address.  The
    request arrives on ["node-1"] and the scheduler places the instance
    there, so it is handled locally. *)
Definition conflict_world : world :=
  {| instances := ∅; interfaces := [];
     ipmanagers :=
       {[ "net-1" := {| ipm_addresses := ["10.0.0.1"; "10.0.0.2"; "10.0.0.3";
                                          "10.0.0.4"; "10.0.0.5"; "10.0.0.6"];
                        ipm_in_use := ["10.0.0.5"] |} ]};
     networks := ["net-1"]; trace := [];
     uuids_drawn := 0; randoms_drawn := 0 |}.

Definition create_request : request :=
  {| REQUEST_METHOD := "POST"; PATH_INFO := "/instances";
     req_data := ""; req_json := None;
     req_authorization := Some "Bearer abc" |}.

Definition conflict_network : list netdesc :=
  [ {| nd_network_uuid := Some "net-1"; nd_address := Some "10.0.0.5";
       nd_model := None |} ].

Definition numbered_uuid (n : nat) : string := "uuid-" ++ pretty n.

(** C1 (the code does not do this).  The specification says that a
    request for an address already reserved is answered 409 'address
    ... in use' and leaves nothing behind.  On the code the value of
    [error_with_cleanup] is dropped and the loop goes on: in the
    scenario above the interface record for 10.0.0.5 is created, the
    instance is built, and the handler returns the instance record
    (status 200). *)
Theorem address_in_use_is_not_rejected
        (TESTING : bool) (json_dumps : json -> string)
        (json_loads : string -> option json)
        (requests_request : outgoing -> option upstream)
        (format_exc : exn -> string) :
  let '(r, w') :=
    Instances_post_wrapped plain_config TESTING json_dumps json_loads "sf"
      requests_request format_exc numbered_uuid (fun _ => 0%nat)
      (fun _ _ _ => Ok ["node-1"]) (fun _ => true)
      create_request "web" 1 1 conflict_network (JArr []) None None None None
      conflict_world in
  r = Ok (Created (Some {| i_uuid := "uuid-0"; i_name := "web"; i_vcpus := 1;
                           i_memory_mb := 1024; i_disks := JArr [];
                           i_ssh_key := None; i_user_data := None;
                           i_node := Some "node-1";
                           i_state := "initial" |})) /\
  interfaces w' = [ {| if_uuid := "uuid-1"; if_instance_uuid := "uuid-0";
                       if_network_uuid := "net-1"; if_ipv4 := "10.0.0.5";
                       if_model := "virtio"; if_order := 0;
                       if_state := "created" |} ] /\
  Driver (InstanceCreate "uuid-0") ∈ trace w'.
Proof.
  vm_compute. split_and!; [reflexivity|reflexivity|].
  repeat first [apply list_elem_of_here | apply list_elem_of_further].
Qed.

(** The capacity scenario: the scheduler finds no node for the
    request. *)
Lemma no_capacity_is_507_witness :
  exists w',
    Instances_post_wrapped plain_config false (fun _ => "{}") (fun _ => None)
      "sf" (fun _ => None) (fun _ => "") numbered_uuid (fun _ => 0%nat)
      (fun _ _ _ => Ok []) (fun _ => true)
      create_request "web" 1 2000 conflict_network (JArr []) None None None
      None conflict_world
    = (Ok (Response {| status_code := 507; body := "{}";
                       mimetype := "application/json" |}), w') /\
    i_state <$> (instances w' !! "uuid-0") = Some "error" /\
    interfaces w' = [] /\
    ipmanagers w' = ipmanagers conflict_world.
Proof.
  exact (no_capacity_is_507
           plain_config false (fun _ => "{}") (fun _ => None) "sf"
           (fun _ => None) (fun _ => "") numbered_uuid (fun _ => 0%nat)
           (fun _ _ _ => Ok []) (fun _ => true)
           create_request "web" 1 2000 conflict_network (JArr []) None None
           None None conflict_world eq_refl).
Defined.

End ApiProofs.

(** ** The image cache *)

Module ImagesProofs.
Import Images.

(** *** Lock refreshes *)

(** A computation that refreshes no lock. *)
Definition keeps {A} (m : M world A) : Prop :=
  forall w, refreshed (m w).2 = refreshed w.

Lemma keeps_ret {A} (a : A) : keeps (ret a).
Proof. done. Qed.

Lemma keeps_raise {A} e : keeps (raise e : M world A).
Proof. done. Qed.

Lemma keeps_get : keeps get.
Proof. done. Qed.

Lemma keeps_modify f :
  (forall w, refreshed (f w) = refreshed w) -> keeps (modify f).
Proof. intros H w. apply H. Qed.

Lemma keeps_bind {A B} (m : M world A) (k : A -> M world B) :
  keeps m -> (forall a, keeps (k a)) -> keeps (bind m k).
Proof.
  intros Hm Hk w. unfold bind. specialize (Hm w).
  destruct (m w) as [[a|e] w1]; cbn in *; [|done].
  by rewrite Hk.
Qed.

Lemma keeps_mbind {A B} (m : M world A) (k : A -> M world B) :
  keeps m -> (forall a, keeps (k a)) -> keeps (m ≫= k).
Proof. apply keeps_bind. Qed.

Lemma keeps_with {A} (enter exit_ : M world unit) (body : M world A) :
  keeps enter -> keeps exit_ -> keeps body -> keeps (with_ enter exit_ body).
Proof.
  intros He Hx Hb. unfold with_. apply keeps_bind; [done|].
  intros _ w. specialize (Hb w).
  destruct (body w) as [[a|e] w1]; cbn in *.
  - specialize (Hx w1). destruct (exit_ w1) as [[[]|e] w2]; cbn in *; congruence.
  - rewrite Hx. done.
Qed.

Lemma keeps_for {A} (xs : list A) (body : A -> M world unit) :
  (forall x, keeps (body x)) -> keeps (for_ xs body).
Proof.
  intros Hb. induction xs as [|x xs IH]; cbn; [apply keeps_ret|].
  by apply keeps_bind.
Qed.

Lemma keeps_fold {A B} (xs : list A) (st : B) (body : B -> A -> M world B) :
  (forall st x, keeps (body st x)) -> keeps (fold_ xs st body).
Proof.
  intros Hb. revert st. induction xs as [|x xs IH]; intros st; cbn;
    [apply keeps_ret|].
  by apply keeps_bind.
Qed.

Lemma keeps_time_time now : keeps (time_time now).
Proof. done. Qed.

Create HintDb keeps.
#[local] Hint Resolve keeps_ret keeps_raise keeps_get keeps_time_time : keeps.

(** Walks through a computation built from the combinators above. *)
Ltac keeps_step :=
  first
    [ apply keeps_ret | apply keeps_raise | apply keeps_get
    | apply keeps_time_time
    | apply keeps_modify; intros ?; reflexivity
    | apply keeps_mbind; [|intros ?]
    | apply keeps_bind; [|intros ?]
    | apply keeps_with
    | apply keeps_for; intros ?
    | apply keeps_fold; intros ? ?
    | match goal with
      | |- keeps (match ?x with _ => _ end) => destruct x
      | |- keeps (let '(_, _) := ?x in _) => destruct x
      | |- keeps ((match ?x with _ => _ end) _) => destruct x
      end
    | solve [auto with keeps] ].

Ltac keeps_all := repeat keeps_step.

Section Refreshes.
Variable cfg : config.
Variable resolve_cirros resolve_ubuntu : string -> string.
Variable http_get : string -> option http_response.
Variable now : nat -> Q.
Variable formatdate : nat -> string.
Variable qemu_img_info : file -> option (gmap string ival).
Variable qemu_img_convert : file -> option file.
Variable gunzip : file -> option file.

Lemma keeps_path_exists path : keeps (path_exists path).
Proof. unfold path_exists. keeps_all. Qed.

Lemma keeps_read_file path : keeps (read_file path).
Proof. unfold read_file. keeps_all. Qed.

Lemma keeps_write_file path f : keeps (write_file path f).
Proof. unfold write_file. keeps_all. Qed.

Lemma keeps_os_link src dst : keeps (os_link src dst).
Proof. unfold os_link. keeps_all. Qed.

Lemma keeps_execute cmd tool src dst : keeps (execute cmd tool src dst).
Proof. unfold execute. keeps_all. Qed.

#[local] Hint Resolve keeps_path_exists keeps_read_file keeps_write_file
  keeps_os_link keeps_execute : keeps.

Lemma keeps_hash_image url : keeps (hash_image cfg url).
Proof. unfold hash_image, _get_cache_path. keeps_all. Qed.

Lemma keeps_read_info url h path : keeps (_read_info url h path).
Proof. unfold _read_info. keeps_all. Qed.

#[local] Hint Resolve keeps_hash_image keeps_read_info : keeps.

Lemma keeps_requires_fetch url : keeps (requires_fetch cfg http_get url).
Proof. unfold requires_fetch. keeps_all. Qed.

Lemma keeps_info_version info : keeps (info_version info).
Proof. unfold info_version. keeps_all. Qed.

Lemma keeps_info_url info : keeps (info_url info).
Proof. unfold info_url. keeps_all. Qed.

(** With [None] for [locks], [bump_locks] does nothing. *)
Lemma keeps_bump_locks_None : keeps (bump_locks None).
Proof. apply keeps_ret. Qed.

#[local] Hint Resolve keeps_requires_fetch keeps_info_version
  keeps_info_url keeps_bump_locks_None : keeps.

Lemma keeps_fetch_None path info resp :
  keeps (fetch now formatdate gunzip path info resp None).
Proof. unfold fetch. keeps_all. Qed.

Lemma keeps_identify path : keeps (identify qemu_img_info path).
Proof. unfold identify. keeps_all. Qed.

#[local] Hint Resolve keeps_fetch_None keeps_identify : keeps.

Lemma keeps_transcode path :
  keeps (_transcode qemu_img_info qemu_img_convert path).
Proof. unfold _transcode. keeps_all. Qed.

#[local] Hint Resolve keeps_transcode : keeps.

(** What [locks.append(image_lock)] evaluates to, when it does. *)
Lemma list_append_is_None locks x w v w' :
  list_append locks x w = (Ok v, w') -> v = None.
Proof.
  unfold list_append. destruct locks; cbn; [|discriminate].
  by intros [= <- _].
Qed.

Lemma keeps_list_append_then {A} locks x (k : _ -> M world A) :
  keeps (k None) -> keeps (list_append locks x ≫= k).
Proof.
  intros Hk w. unfold mbind, M_bind, bind.
  destruct (list_append locks x w) as [[v|e] w1] eqn:E; cbn.
  - rewrite (list_append_is_None _ _ _ _ _ E), Hk.
    unfold list_append in E. destruct locks; [|discriminate].
    by injection E as _ <-.
  - unfold list_append in E. destruct locks; [discriminate|].
    by injection E as _ <-.
Qed.

(** C4 (the code does not do this).  The specification says every
    held lock, the caller's and the image lock, is refreshed every 10
    seconds while the body is streamed.  On the code [fetch] is given
    the value of [locks.append(image_lock)], which is [None]: whatever
    the URL, the locks passed, the answer of the server and the clock,
    [get_image] refreshes no lock at all. *)
Theorem get_image_refreshes_no_lock
        (url : string) (locks : option (list (option string)))
        (timeout : Z) (w : world) :
  refreshed
    (get_image cfg resolve_cirros resolve_ubuntu http_get now formatdate
               qemu_img_info qemu_img_convert gunzip url locks timeout w).2
  = refreshed w.
Proof.
  revert w. change (keeps (get_image cfg resolve_cirros resolve_ubuntu
                             http_get now formatdate qemu_img_info
                             qemu_img_convert gunzip url locks timeout)).
  unfold get_image, get_lock.
  apply keeps_mbind; [auto with keeps|]. intros [h path].
  apply keeps_with; [keeps_all..|].
  apply keeps_mbind; [auto with keeps|]. intros [[info dirty] resp].
  apply keeps_mbind; [|intros ?; keeps_all].
  destruct dirty.
  - apply keeps_list_append_then. auto with keeps.
  - keeps_all.
Qed.

End Refreshes.

(** *** Resize *)

Section Resize.
Variable qemu_img_info : file -> option (gmap string ival).
Variable qemu_img_resize : file -> Z -> option file.

Abbreviation resize := (Images.resize qemu_img_info qemu_img_resize).

Definition backing_file (path : string) (size : Z) : string :=
  path ++ ".qcow2" ++ "." ++ pretty size ++ "G".

(** [os.path.exists] would answer yes. *)
Definition present (w : world) (path : string) : Prop :=
  is_Some (files w !! path) \/ path ∈ dirs w.

Lemma path_exists_spec path w :
  path_exists path w
  = (Ok (bool_decide (is_Some (files w !! path))
         || bool_decide (path ∈ dirs w)), emit (PathExists path) w).
Proof. reflexivity. Qed.

Lemma present_true w path :
  present w path ->
  bool_decide (is_Some (files w !! path)) || bool_decide (path ∈ dirs w)
  = true.
Proof.
  intros [H|H]; apply orb_true_iff; [left|right]; by apply bool_decide_eq_true.
Qed.

Lemma present_false w path :
  ~ present w path ->
  bool_decide (is_Some (files w !! path)) || bool_decide (path ∈ dirs w)
  = false.
Proof.
  intros H. apply orb_false_iff.
  split; apply bool_decide_eq_false; intros H'; apply H; [by left|by right].
Qed.

#[local] Instance present_dec w path : Decision (present w path).
Proof. unfold present. apply _. Defined.

(** An existing target is returned at once: only the existence test
    was made. *)
Lemma resize_existing_target path size w :
  present w (backing_file path size) ->
  resize path size w
  = (Ok (backing_file path size),
     emit (PathExists (backing_file path size)) w).
Proof.
  intros Hp. unfold Images.resize, mbind, M_bind, bind.
  fold (backing_file path size).
  rewrite path_exists_spec, present_true by done. reflexivity.
Qed.

(** A call that succeeds leaves the target in place. *)
Lemma resize_leaves_target path size w p w1 :
  resize path size w = (Ok p, w1) ->
  p = backing_file path size /\ present w1 p.
Proof.
  unfold Images.resize, mbind, M_bind, bind.
  fold (backing_file path size).
  rewrite path_exists_spec.
  destruct (decide (present w (backing_file path size))) as [Hp|Hp].
  - rewrite present_true by done. cbn. intros [= <- <-]. split; [done|].
    exact Hp.
  - rewrite present_false by done. cbn.
    destruct (identify qemu_img_info path _) as [[data|e] w2] eqn:Ei;
      [|discriminate].
    destruct (match data !! "virtual size" with
              | Some (INum q) => _ | _ => false end).
    + unfold os_link, mbind, M_bind, bind. cbn.
      destruct (files w2 !! path) as [f|]; [|discriminate]. cbn.
      destruct (_ || _); cbn; [discriminate|].
      intros [= <- <-]. split; [done|]. left. cbn.
      rewrite lookup_insert_eq. by eexists.
    + unfold copyfile, execute, mbind, M_bind, bind. cbn.
      destruct (files w2 !! (path ++ ".qcow2")) as [f|]; [|discriminate].
      cbn. rewrite lookup_insert_eq. cbn.
      destruct (qemu_img_resize f size) as [out|]; [|discriminate]. cbn.
      intros [= <- <-]. split; [done|]. left. cbn.
      rewrite lookup_insert_eq. by eexists.
Qed.

(** C9.  [resize] is idempotent: if the backing file for the path and
    size is there already, the call returns its path at once, having
    made the existence test and nothing else; and after any call that
    succeeds, a second call with the same arguments returns the same
    path and leaves every file as the first call left it. *)
Theorem resize_is_idempotent (path : string) (size : Z) (w : world) :
  (present w (backing_file path size) ->
   resize path size w
   = (Ok (backing_file path size),
      emit (PathExists (backing_file path size)) w)) /\
  (forall (p : string) (w1 : world),
      resize path size w = (Ok p, w1) ->
      p = backing_file path size /\
      exists w2, resize path size w1 = (Ok p, w2) /\
                 files w2 = files w1 /\ dirs w2 = dirs w1).
Proof.
  split; [apply resize_existing_target|].
  intros p w1 Hr.
  destruct (resize_leaves_target _ _ _ _ _ Hr) as [-> Hp1].
  split; [done|].
  eexists. split; [by apply resize_existing_target|]. done.
Qed.

End Resize.

(** *** Dirty or clean *)

Lemma hex_digit_not_slash n :
  0 <= n < 16 -> Sha256.hex_digit n <> Ascii.ascii_of_nat 47.
Proof.
  intros Hn.
  assert (Hall : Forall (fun k => Sha256.hex_digit k <> Ascii.ascii_of_nat 47)
                        (seqZ 0 16)).
  { apply (bool_decide_unpack _). vm_compute. exact I. }
  rewrite Forall_forall in Hall. apply Hall, elem_of_seqZ. lia.
Qed.

(** A digest is made of hexadecimal digits: it is never an absolute
    path. *)
Lemma hexdigest_relative s : startswith (Sha256.hexdigest s) "/" = false.
Proof.
  unfold Sha256.hexdigest.
  destruct (Sha256.digest (Sha256.bytes_of s)) as [|x xs]; [done|].
  cbn [foldr]. unfold Sha256.hex_word. cbn [rev seq fmap list_fmap app].
  cbn [String.string_of_list_ascii]. unfold startswith.
  match goal with
  | |- String.prefix _ (String ?c ?r +:+ ?acc) = _ =>
      change (String c r +:+ acc) with (String c (r +:+ acc))
  end.
  cbn [String.prefix].
  match goal with
  | |- context [Ascii.ascii_dec ?a ?b] =>
      destruct (Ascii.ascii_dec a b) as [E|]; [|done]
  end.
  exfalso. symmetry in E. revert E. apply hex_digit_not_slash.
  apply Z.mod_pos_bound. lia.
Qed.

Section Dirty.
Variable cfg : config.
Variable http_get : string -> option http_response.

Definition cache_path : string := path_join (STORAGE_PATH cfg) "image_cache".

(** Where [requires_fetch] looks for the metadata of an image. *)
Definition info_path (image_url : string) : string :=
  path_join cache_path (Sha256.hexdigest image_url) ++ ".info".

(** The dict [_read_info] makes up when there is no [.info] file. *)
Definition blank_info (image_url : string) : gmap string value :=
  <["url" := VStr image_url]>
    (<["hash" := VStr (Sha256.hexdigest image_url)]>
       (<["version" := VInt 0]> ∅)).

Lemma length_append (a b : string) :
  String.length (a ++ b) = (String.length a + String.length b)%nat.
Proof.
  induction a as [|c a IH]; [done|].
  change (S (String.length (a ++ b))
          = S (String.length a + String.length b)).
  by rewrite IH.
Qed.

Lemma info_path_is_not_cache_path url : info_path url <> cache_path.
Proof.
  unfold info_path, path_join at 1. rewrite hexdigest_relative.
  intros E. apply (f_equal String.length) in E.
  destruct (_ || _); repeat rewrite length_append in E; cbn in E; lia.
Qed.

(** The flag is set exactly when one of the two validated fields of
    the stored metadata differs from the header of the response. *)
Lemma requires_fetch_dirty_iff url w info dirty resp w' :
  requires_fetch cfg http_get url w = (Ok (info, dirty, resp), w') ->
  dirty = true <->
  (info_get info "Last-Modified" <> headers_get (headers resp) "Last-Modified"
   \/ info_get info "Content-Length"
      <> headers_get (headers resp) "Content-Length").
Proof.
  unfold requires_fetch. unfold mbind, M_bind.
  intros ([h path] & w1 & _ & H)%ApiProofs.bind_Ok_inv.
  apply ApiProofs.bind_Ok_inv in H as (info' & w2 & _ & H).
  apply ApiProofs.bind_Ok_inv in H as ([] & w3 & _ & H).
  apply ApiProofs.bind_Ok_inv in H as (resp' & w4 & _ & H).
  case_bool_decide; [discriminate|].
  injection H as <- <- <- _. cbn.
  case_bool_decide as H1; [|case_bool_decide as H2];
    (split; [intros ?|intros [?|?]]); try done; auto.
Qed.

(** C8 (the code does not do this in one case).  The specification
    says the copy is dirty whenever no [.info] file exists.  On the
    code the flag comes from the comparison of the two fields alone:
    with no [.info] file and an answer that carries neither
    [Last-Modified] nor [Content-Length], both sides of both
    comparisons are [None] and the copy is reported clean. *)
Theorem missing_info_without_headers_is_clean
        (url : string) (resp : http_response) (w : world) :
  ~ present w (info_path url) ->
  http_get url = Some resp ->
  status_code resp = 200 ->
  headers resp !! "Last-Modified" = None ->
  headers resp !! "Content-Length" = None ->
  exists w',
    requires_fetch cfg http_get url w
    = (Ok (blank_info url, false, resp), w').
Proof.
  intros Habsent Hget Hstatus Hlm Hcl.
  assert (Hfiles : files w !! info_path url = None).
  { destruct (files w !! info_path url) eqn:E; [|done].
    exfalso. apply Habsent. left. by eexists. }
  assert (Hdirs : info_path url ∉ dirs w).
  { intros Hin. apply Habsent. by right. }
  pose proof (info_path_is_not_cache_path url) as Hne.
  unfold requires_fetch, hash_image, _get_cache_path, _read_info,
    mbind, M_bind, bind.
  fold cache_path.
  remember (info_path url) as ip eqn:Eip.
  remember cache_path as cp eqn:Ecp.
  assert (Eip' : path_join cp (Sha256.hexdigest url) ++ ".info" = ip)
    by (by subst).
  rewrite path_exists_spec.
  destruct (_ || _); cbn -[path_join]; rewrite !Eip', path_exists_spec;
    cbn; rewrite Hfiles, Hget;
    (rewrite (bool_decide_false (is_Some None)) by (by intros [? ?]));
    rewrite bool_decide_false;
    cbn; rewrite ?Hstatus; cbn;
    unfold info_get, headers_get; rewrite ?Hlm, ?Hcl; cbn.
  1, 3: by eexists.
  - done.
  - intros [E%elem_of_singleton|?]%elem_of_union; done.
Qed.

End Dirty.

(** *** A concrete node *)

Example sha256_test_vectors :
  Sha256.hexdigest "abc"
  = "ba7816bf8f01cfea414140de5dae2223b00361a396177a9cb410ff61f20015ad" /\
  Sha256.hexdigest ""
  = "e3b0c44298fc1c149afbf4c8996fb92427ae41e4649b934ca495991b7852b855".
Proof. by vm_compute. Qed.

Example formatting :
  fmt_03d 7 = "007" /\ fmt_03d 1234 = "1234" /\ fmt_03d (-1) = "-01" /\
  path_join "/srv/sf" "image_cache" = "/srv/sf/image_cache" /\
  path_join "/srv/sf/" "x" = "/srv/sf/x" /\ path_join "/a" "/b" = "/b".
Proof. by vm_compute. Qed.

Definition sample_config : config :=
  {| NODE_NAME := "node-1"; STORAGE_PATH := "/srv/shakenfist" |}.

(** Modelled from the spec: the resolvers are prefix-to-URL mappings;
    this one maps [cirros:<version>] to the download of that
    version. *)
Definition sample_cirros (name : string) : string :=
  let version := String.substring 7 (String.length name - 7) name in
  "http://download.cirros-cloud.net/" ++ version ++ "/cirros-" ++ version
  ++ "-x86_64-disk.img".

Definition sample_ubuntu (name : string) : string :=
  let version := String.substring 7 (String.length name - 7) name in
  "https://cloud-images.ubuntu.com/" ++ version ++ "/current/" ++ version
  ++ "-server-cloudimg-amd64.img".

Definition cirros_url : string :=
  "http://download.cirros-cloud.net/0.5.1/cirros-0.5.1-x86_64-disk.img".

Definition live_url : string := "http://example.com/live.img".

(** A server with two images: one served with both validated headers,
    one (generated on the fly) with neither. *)
Definition sample_web (url : string) : option http_response :=
  if bool_decide (url = cirros_url) then
    Some {| status_code := 200;
            headers := {[ "Last-Modified" := "Mon, 02 Nov 2026 10:00:00 GMT";
                          "Content-Length" := "8" ]};
            chunks := ["abcd"; "efgh"] |}
  else if bool_decide (url = live_url) then
    Some {| status_code := 200; headers := ∅; chunks := ["abcd"] |}
  else None.

(** A slow transfer: eleven seconds between two readings of the
    clock. *)
Definition sample_now (n : nat) : Q := inject_Z (1700000000 + 11 * Z.of_nat n).
Definition sample_date (n : nat) : string := "Thu, 05 Nov 2026 00:00:00 -0000".
Definition sample_info (f : file) : option (gmap string ival) :=
  Some {[ "file format" := IStr "raw";
          "virtual size" := INum (inject_Z 1073741824) ]}.
Definition sample_tool (f : file) : option file := Some f.
Definition sample_resize (f : file) (size : Z) : option file := Some f.

Definition empty_world : world :=
  {| files := ∅; dirs := ∅; trace := []; refreshed := []; clock := 0;
     caller_locks := [] |}.

Definition sample_get_image :=
  get_image sample_config sample_cirros sample_ubuntu sample_web sample_now
            sample_date sample_info sample_tool sample_tool.

Lemma missing_info_without_headers_is_clean_witness :
  ~ present empty_world (info_path sample_config live_url) /\
  sample_web live_url = Some {| status_code := 200; headers := ∅;
                                chunks := ["abcd"] |} /\
  exists w',
    requires_fetch sample_config sample_web live_url empty_world
    = (Ok (blank_info live_url, false,
           {| status_code := 200; headers := ∅; chunks := ["abcd"] |}), w').
Proof.
  assert (H1 : ~ present empty_world (info_path sample_config live_url)).
  { intros [[f Hf]|Hd]; [|by apply not_elem_of_empty in Hd].
    cbn in Hf. by rewrite lookup_empty in Hf. }
  assert (H2 : sample_web live_url
               = Some {| status_code := 200; headers := ∅;
                         chunks := ["abcd"] |}) by reflexivity.
  split; [exact H1|]. split; [exact H2|].
  exact (missing_info_without_headers_is_clean
           sample_config sample_web live_url _ empty_world
           H1 H2 eq_refl eq_refl eq_refl).
Defined.

Definition one_image : world :=
  {| files := {[ "/srv/img" := Blob "abcd"; "/srv/img.qcow2" := Blob "abcd" ]};
     dirs := ∅; trace := []; refreshed := []; clock := 0;
     caller_locks := [] |}.

Lemma resize_is_idempotent_witness :
  let w1 := (resize sample_info sample_resize "/srv/img" 8 one_image).2 in
  resize sample_info sample_resize "/srv/img" 8 one_image
  = (Ok "/srv/img.qcow2.8G", w1) /\
  exists w2,
    resize sample_info sample_resize "/srv/img" 8 w1
    = (Ok "/srv/img.qcow2.8G", w2) /\
    files w2 = files w1 /\ dirs w2 = dirs w1.
Proof.
  cbn zeta.
  assert (H : resize sample_info sample_resize "/srv/img" 8 one_image
              = (Ok "/srv/img.qcow2.8G",
                 (resize sample_info sample_resize "/srv/img" 8 one_image).2))
    by (vm_compute; reflexivity).
  split; [exact H|].
  exact (proj2 (proj2 (resize_is_idempotent
                         sample_info sample_resize "/srv/img" 8 one_image)
                      "/srv/img.qcow2.8G" _ H)).
Defined.

(** *** Which hash keys the cache *)

(** A name no resolver claims is used as it is. *)
Lemma resolve_verbatim resolve_cirros resolve_ubuntu name :
  startswith name "cirros" = false ->
  startswith name "ubuntu" = false ->
  resolve resolve_cirros resolve_ubuntu name = name.
Proof. intros H1 H2. unfold resolve. cbn. by rewrite H1, H2. Qed.

Definition unresolved_hash : string :=
  "d558ab3e2f8daffe0e70c63274a72311b5ae53bbd20ced5fb6ad69345cb535f9".
Definition resolved_hash : string :=
  "aca4103de7b5636cd857b54cb0dd3770e7dd98500b6d4f1cefa18b052074e092".

(** C5 (the code does not do this).  The specification says the lock
    name, the cache paths and the [.info] metadata all derive from the
    hash of the resolved URL.  On the code [get_image] hashes the URL
    before it is resolved: for [cirros:0.5.1] on an empty cache the
    lock, the payload and the [.info] file written carry the hash of
    ['cirros:0.5.1'], and only the [.info] file looked up carries the
    hash of the resolved URL. *)
Theorem get_image_hashes_unresolved_url :
  resolve sample_cirros sample_ubuntu "cirros:0.5.1" = cirros_url /\
  Sha256.hexdigest "cirros:0.5.1" = unresolved_hash /\
  Sha256.hexdigest cirros_url = resolved_hash /\
  let '(r, w') := sample_get_image "cirros:0.5.1" (Some []) 600 empty_world in
  r = Ok ("/srv/shakenfist/image_cache/" ++ unresolved_hash ++ ".v001") /\
  trace w' =
    [ PathExists "/srv/shakenfist/image_cache";
      MakeDirs "/srv/shakenfist/image_cache";
      LockAcquire ("sf/images/node-1/" ++ unresolved_hash) 600;
      PathExists "/srv/shakenfist/image_cache";
      PathExists ("/srv/shakenfist/image_cache/" ++ resolved_hash ++ ".info");
      HttpGet cirros_url;
      WriteFile ("/srv/shakenfist/image_cache/" ++ unresolved_hash ++ ".v001");
      WriteFile ("/srv/shakenfist/image_cache/" ++ unresolved_hash ++ ".info");
      PathExists ("/srv/shakenfist/image_cache/" ++ unresolved_hash
                  ++ ".v001.qcow2");
      PathExists ("/srv/shakenfist/image_cache/" ++ unresolved_hash ++ ".v001");
      Exec ("qemu-img info /srv/shakenfist/image_cache/" ++ unresolved_hash
            ++ ".v001");
      Exec ("qemu-img convert -t none -O qcow2 /srv/shakenfist/image_cache/"
            ++ unresolved_hash ++ ".v001 /srv/shakenfist/image_cache/"
            ++ unresolved_hash ++ ".v001.qcow2");
      LockRelease ("sf/images/node-1/" ++ unresolved_hash) ].
Proof. vm_compute. done. Qed.

(** The metadata written is therefore never read back: a second
    [get_image] of the same name finds no [.info] where it looks and
    fetches the body again, as version 1 again. *)
Example second_get_image_fetches_again :
  let w1 := (sample_get_image "cirros:0.5.1" (Some []) 600 empty_world).2 in
  let '(r, w2) := sample_get_image "cirros:0.5.1" (Some []) 600 w1 in
  r = Ok ("/srv/shakenfist/image_cache/" ++ unresolved_hash ++ ".v001") /\
  WriteFile ("/srv/shakenfist/image_cache/" ++ unresolved_hash ++ ".v001")
    ∈ drop (length (trace w1)) (trace w2).
Proof.
  vm_compute. split; [reflexivity|].
  repeat first [apply list_elem_of_here | apply list_elem_of_further].
Qed.

(** *** Refreshes, on the sample node *)

(** With the caller holding one lock and eleven seconds between two
    readings of the clock, the dirty fetch of [get_image] refreshes
    nothing, although the caller's list has grown by the image lock. *)
Example long_fetch_refreshes_nothing :
  let '(r, w') := sample_get_image "cirros:0.5.1"
                    (Some [Some "sf/instance/i-1"]) 600 empty_world in
  r = Ok ("/srv/shakenfist/image_cache/" ++ unresolved_hash ++ ".v001") /\
  refreshed w' = [] /\
  caller_locks w' = [Some "sf/instance/i-1";
                     Some ("sf/images/node-1/" ++ unresolved_hash)].
Proof. by vm_compute. Qed.

(** [fetch] itself does refresh the locks it is given. *)
Example fetch_refreshes_given_locks :
  let '(r, w') :=
    fetch sample_now sample_date sample_tool "/srv/shakenfist/image_cache/h"
          (blank_info cirros_url)
          {| status_code := 200; headers := ∅; chunks := ["abcd"; "efgh"] |}
          (Some [Some "sf/instance/i-1"; Some "sf/images/node-1/h"])
          empty_world in
  r = Ok "/srv/shakenfist/image_cache/h.v001" /\
  refreshed w' = ["sf/instance/i-1"; "sf/images/node-1/h";
                  "sf/instance/i-1"; "sf/images/node-1/h"].
Proof. by vm_compute. Qed.

End ImagesProofs.
